(** * diff_rast.rasterize: the autograd wrapper around the CUDA rasteriser

    A shallow embedding of [src/diff_rast/rasterize.py].  The wrapper is
    stateful Python: it validates its arguments with [assert], rebinds
    local names to freshly built tensors, calls the native library
    [cuda_lib] and stores what the backward pass needs on [ctx].  Tensors
    are objects with identity, so they live in a heap and are passed by
    handle; every method of the wrapper either returns a handle it was
    given or allocates a new cell.

    The native library is not part of the Python source.  Its two entry
    points are an interface ([CudaLib]) the wrapper is parametric in; the
    per-pixel compositing that the library performs is modelled from the
    written specification in [Module Compositor], over exact rationals. *)

From stdpp Require Import base list strings.
From Stdlib Require Import ZArith QArith Lia Lqa.
From Stdlib Require Import Floats.SpecFloat.

Local Open Scope Z_scope.

(* ===================================================================== *)
(** ** Python values used by the wrapper                                  *)
(* ===================================================================== *)

Module Py.

(** The exceptions that can leave [forward] and [backward]. *)
Inductive exn :=
  | AssertionError (msg : string)
  | NameError (name : string)
  | IndexError
  | AttributeError (attr : string)
  | ValueError
  | OverflowError
  | RuntimeError (msg : string)
  | InvalidHandle.   (* a handle outside the heap; no Python program has one *)

Inductive result (A : Type) :=
  | Ok (a : A)
  | Raise (e : exn).
Arguments Ok {A} a.
Arguments Raise {A} e.

Definition is_ok {A} (r : result A) : bool :=
  match r with Ok _ => true | Raise _ => false end.

(** A Python number: the wrapper receives [glob_scale], [fx] and [fy] as
    [int] or [float] (the module's own driver passes [1] for
    [glob_scale]) and converts them with [float(...)]. *)
Inductive pynum :=
  | PyInt (n : Z)
  | PyFloat (x : spec_float).

(** [float(x)]: identity on a float; an int is rounded to the nearest
    binary64, and an int too large for a binary64 raises OverflowError. *)
Definition py_float (x : pynum) : result spec_float :=
  match x with
  | PyFloat f => Ok f
  | PyInt n =>
      match binary_normalize 53 1024 n 0 false with
      | S754_infinity _ => Raise OverflowError
      | f => Ok f
      end
  end.

(** The objects that meet in the comparison [getattr(input, "dim") != 2]:
    a bound method and an int. *)
Inductive pyobj :=
  | ObjInt (n : Z)
  | ObjBoundMethod (self : nat) (name : string).

(** [a != b] on these objects.  Ints compare by value; a bound method
    equals only a bound method of the same object and name, and is unequal
    to every int. *)
Definition py_ne (a b : pyobj) : bool :=
  match a, b with
  | ObjInt m, ObjInt n => negb (m =? n)
  | ObjBoundMethod s1 n1, ObjBoundMethod s2 n2 =>
      negb (Nat.eqb s1 s2 && String.eqb n1 n2)
  | _, _ => true
  end.

End Py.
Export Py.

(* ===================================================================== *)
(** ** Tensors                                                            *)
(* ===================================================================== *)

Module Torch.

Inductive Dtype :=
  | uint8 | int8 | int16 | int32 | int64
  | float16 | float32 | float64.

Inductive Device :=
  | cpu
  | cuda (index : nat).

#[global] Instance Dtype_eq_dec : EqDecision Dtype.
Proof. solve_decision. Defined.
#[global] Instance Device_eq_dec : EqDecision Device.
Proof. solve_decision. Defined.

Definition is_floating (d : Dtype) : bool :=
  match d with
  | float16 | float32 | float64 => true
  | _ => false
  end.

Definition is_integral (d : Dtype) : bool := negb (is_floating d).

(** The values an integral dtype can hold, as an inclusive interval. *)
Definition dtype_range (d : Dtype) : option (Z * Z) :=
  match d with
  | uint8 => Some (0, 255)
  | int8 => Some (-128, 127)
  | int16 => Some (-32768, 32767)
  | int32 => Some (-2147483648, 2147483647)
  | int64 => Some (-9223372036854775808, 9223372036854775807)
  | _ => None
  end.

Definition dtype_bits (d : Dtype) : Z :=
  match d with
  | uint8 | int8 => 8
  | int16 | float16 => 16
  | int32 | float32 => 32
  | int64 | float64 => 64
  end.

(** Result dtype of an operation on two tensors ([torch.promote_types]):
    floating beats integral, wider beats narrower, and [uint8] with a
    signed integer needs a signed type that holds both. *)
Definition promote_types (a b : Dtype) : Dtype :=
  match is_floating a, is_floating b with
  | true, true => if dtype_bits a <? dtype_bits b then b else a
  | true, false => a
  | false, true => b
  | false, false =>
      match a, b with
      | uint8, uint8 => uint8
      | uint8, int8 | int8, uint8 => int16
      | uint8, s | s, uint8 => s
      | _, _ => if dtype_bits a <? dtype_bits b then b else a
      end
  end.

Definition device_is_cpu (d : Device) : bool :=
  match d with cpu => true | cuda _ => false end.

(** Arithmetic on tensor elements.  Floating-point rounding is left to the
    instance: the wrapper's behaviour does not depend on it. *)
Class ElemOps (scalar : Type) := {
  (** the float32 element holding a Python int literal *)
  of_pyint : Z -> scalar;
  (** conversion of one element from a dtype to another *)
  convert : Dtype -> Dtype -> scalar -> scalar;
  (** a floating element divided by a Python int *)
  true_div : scalar -> Z -> scalar;
}.

Section Tensors.
Context {scalar : Type} `{ElemOps scalar}.

(** A tensor: its sizes, element type, placement, whether its storage is
    laid out contiguously, and its elements in row-major order. *)
Record Tensor := mkTensor {
  shape : list Z;
  dtype : Dtype;
  device : Device;
  is_contiguous : bool;
  data : list scalar;
}.

(** [t.shape[0]] *)
Definition shape0 (t : Tensor) : result Z :=
  match shape t with
  | [] => Raise IndexError
  | n :: _ => Ok n
  end.

(** Elements of [t] as elements of dtype [dt]; nothing is converted when
    [t] already has that dtype. *)
Definition cast_data (dt : Dtype) (t : Tensor) : list scalar :=
  if decide (dtype t = dt) then data t
  else map (convert (dtype t) dt) (data t).

(** [torch.Tensor(values, device=d)], the legacy constructor: a
    one-dimensional float32 CPU tensor.  It accepts no other device type. *)
Definition legacy_Tensor (values : list Z) (d : Device) : result Tensor :=
  if device_is_cpu d then
    Ok {| shape := [Z.of_nat (length values)]; dtype := float32; device := cpu;
          is_contiguous := true; data := map of_pyint values |}
  else Raise (RuntimeError "legacy constructor expects device type: cpu").

(** [t.unsqueeze(0)] *)
Definition unsqueeze0 (t : Tensor) : Tensor :=
  {| shape := 1 :: shape t; dtype := dtype t; device := device t;
     is_contiguous := is_contiguous t; data := data t |}.

(** [t.squeeze(-1)]: drops the last dimension when its size is 1. *)
Definition squeeze_last (t : Tensor) : Tensor :=
  match reverse (shape t) with
  | 1 :: rest =>
      {| shape := reverse rest; dtype := dtype t; device := device t;
         is_contiguous := is_contiguous t; data := data t |}
  | _ => t
  end.

(** [torch.cat([a, b], dim=0)]: both tensors have at least one dimension,
    agree on every size but the first and live on one device; the result
    has the promoted dtype and the rows of [a] followed by those of [b]. *)
Definition torch_cat0 (a b : Tensor) : result Tensor :=
  match shape a, shape b with
  | na :: ra, nb :: rb =>
      if negb (bool_decide (ra = rb)) then
        Raise (RuntimeError "Sizes of tensors must match except in dimension 0")
      else if negb (bool_decide (device a = device b)) then
        Raise (RuntimeError "Expected all tensors to be on the same device")
      else
        let dt := promote_types (dtype a) (dtype b) in
        Ok {| shape := (na + nb) :: ra; dtype := dt; device := device a;
              is_contiguous := true;
              data := cast_data dt a ++ cast_data dt b |}
  | _, _ => Raise (RuntimeError "zero-dimensional tensor cannot be concatenated")
  end.

(** [t.float()] when [t] is not float32 already. *)
Definition to_float32 (t : Tensor) : Tensor :=
  {| shape := shape t; dtype := float32; device := device t;
     is_contiguous := is_contiguous t; data := cast_data float32 t |}.

(** [t / k] for a Python int [k]: true division, in the tensor's dtype
    when that is floating and in float32 otherwise. *)
Definition div_pyint (t : Tensor) (k : Z) : Tensor :=
  let dt := if is_floating (dtype t) then dtype t else float32 in
  {| shape := shape t; dtype := dt; device := device t;
     is_contiguous := is_contiguous t;
     data := map (fun x => true_div x k) (cast_data dt t) |}.

(** Same sizes, element type and elements; placement and layout may differ. *)
Definition same_content (a b : Tensor) : Prop :=
  shape a = shape b /\ dtype a = dtype b /\ data a = data b.

End Tensors.
Arguments Tensor scalar : clear implicits.

End Torch.
Export Torch.

(* ===================================================================== *)
(** ** The wrapper: state, native interface, [forward] and [backward]     *)
(* ===================================================================== *)

Module Rasterize.

(** A tensor object is named by its position in the heap. *)
Definition handle := nat.

Section Wrapper.
Context {scalar : Type} `{ElemOps scalar}.

(** *** The native library [cuda_lib]

    The arguments of [cuda_lib.rasterize_forward] and
    [cuda_lib.rasterize_backward], in call order, as the values the
    library sees when it is entered. *)
Record FwdArgs := mkFwdArgs {
  a_means3d : Tensor scalar;
  a_scales : Tensor scalar;
  a_glob_scale : spec_float;
  a_rotations_quat : Tensor scalar;
  a_colors : Tensor scalar;
  a_opacity : Tensor scalar;
  a_view_matrix : Tensor scalar;
  a_proj_matrix : Tensor scalar;
  a_img_height : Z;
  a_img_width : Z;
  a_fx : spec_float;
  a_fy : spec_float;
  a_channels : Z;
}.

Record FwdOuts := mkFwdOuts {
  o_num_rendered : Z;
  o_out_img : Tensor scalar;
  o_out_radii : Tensor scalar;
  o_final_Ts : Tensor scalar;
  o_final_idx : Tensor scalar;
  o_gaussian_ids_sorted : Tensor scalar;
  o_tile_bins : Tensor scalar;
  o_xy : Tensor scalar;
  o_conics : Tensor scalar;
}.

Record BwdArgs := mkBwdArgs {
  b_means3d : Tensor scalar;
  b_colors : Tensor scalar;
  b_scales : Tensor scalar;
  b_grad_out_img : Tensor scalar;
  b_img_height : Z;
  b_img_width : Z;
  b_fx : pynum;
  b_fy : pynum;
  b_channels : Z;
  b_gaussian_ids_sorted : Tensor scalar;
  b_tile_bins : Tensor scalar;
  b_xy : Tensor scalar;
  b_conics : Tensor scalar;
  b_opacities : Tensor scalar;
  b_final_Ts : Tensor scalar;
  b_final_idx : Tensor scalar;
}.

(** The library reads its arguments and hands back new tensors (or
    fails); it is the one part of the package that is not Python. *)
Record CudaLib := mkCudaLib {
  rasterize_forward : FwdArgs -> result FwdOuts;
  rasterize_backward : BwdArgs -> result (Tensor scalar * Tensor scalar);
}.

Inductive CoreCall :=
  | FwdCall (a : FwdArgs)
  | BwdCall (a : BwdArgs).

(** *** The autograd context and the program state *)

(** What [forward] leaves on [ctx]: nine attributes and the twelve
    tensors given to [ctx.save_for_backward], in that order. *)
Record Ctx := mkCtx {
  ctx_num_rendered : Z;
  ctx_glob_scale : pynum;
  ctx_view_matrix : handle;
  ctx_proj_matrix : handle;
  ctx_img_width : Z;
  ctx_img_height : Z;
  ctx_fx : pynum;
  ctx_fy : pynum;
  ctx_channels : Z;
  saved_tensors : list handle;
}.

Record State := mkState {
  heap : list (Tensor scalar);   (* every tensor object alive *)
  ctx : option Ctx;              (* [None]: a context [forward] has not filled *)
  calls : list CoreCall;         (* entries into the native library, oldest first *)
}.

(** Computations that read and extend the state and may raise. *)
Definition M (A : Type) : Type := State -> result A * State.

Definition ret {A} (a : A) : M A := fun s => (Ok a, s).

Definition bind {A B} (m : M A) (k : A -> M B) : M B :=
  fun s => match m s with
           | (Ok a, s') => k a s'
           | (Raise e, s') => (Raise e, s')
           end.

Definition raise {A} (e : exn) : M A := fun s => (Raise e, s).

Definition lift {A} (r : result A) : M A := fun s => (r, s).

Notation "'let!' x ':=' m 'in' k" := (bind m (fun x => k))
  (at level 10, x pattern, m at level 100, k at level 200).

Definition deref (r : handle) : M (Tensor scalar) :=
  fun s => match heap s !! r with
           | Some t => (Ok t, s)
           | None => (Raise InvalidHandle, s)
           end.

Definition alloc (t : Tensor scalar) : M handle :=
  fun s => (Ok (length (heap s)),
            {| heap := heap s ++ [t]; ctx := ctx s; calls := calls s |}).

Definition log_call (c : CoreCall) : M unit :=
  fun s => (Ok tt, {| heap := heap s; ctx := ctx s; calls := calls s ++ [c] |}).

Definition set_ctx (c : Ctx) : M unit :=
  fun s => (Ok tt, {| heap := heap s; ctx := Some c; calls := calls s |}).

Definition get_ctx : M Ctx :=
  fun s => match ctx s with
           | Some c => (Ok c, s)
           | None => (Raise (AttributeError "num_rendered"), s)
           end.

(** [assert cond, msg], as the interpreter runs it unless started with
    [-O]: the message is evaluated only when [cond] is false, and
    evaluating it may itself raise. *)
Definition assert_ (cond : bool) (msg : M string) : M unit :=
  if cond then ret tt
  else let! m := msg in raise (AssertionError m).

Fixpoint for_each {A} (l : list A) (body : A -> M unit) : M unit :=
  match l with
  | [] => ret tt
  | x :: rest => let! _ := body x in for_each rest body
  end.

(** *** Tensor methods on handles *)

(** The module-level name [means] (bound only when the file runs as a
    script) and the current CUDA device. *)
Context (cuda_lib : CudaLib) (module_means : option handle) (current_cuda : nat).

(** [t.contiguous()]: the tensor itself when it is contiguous already. *)
Definition contiguous (r : handle) : M handle :=
  let! t := deref r in
  if is_contiguous t then ret r
  else alloc {| shape := shape t; dtype := dtype t; device := device t;
                is_contiguous := true; data := data t |}.

(** [t.cuda()]: the tensor itself when it is on the current CUDA device. *)
Definition to_cuda (r : handle) : M handle :=
  let! t := deref r in
  if decide (device t = cuda current_cuda) then ret r
  else alloc {| shape := shape t; dtype := dtype t; device := cuda current_cuda;
                is_contiguous := is_contiguous t; data := data t |}.

(** [t.float()]: the tensor itself when it is float32 already. *)
Definition float_ (r : handle) : M handle :=
  let! t := deref r in
  if decide (dtype t = float32) then ret r else alloc (to_float32 t).

(** [t / k] *)
Definition div_ (r : handle) (k : Z) : M handle :=
  let! t := deref r in alloc (div_pyint t k).

(** [torch.Tensor(values, device=d).unsqueeze(0)] *)
Definition new_row (values : list Z) (d : Device) : M handle :=
  let! t := lift (legacy_Tensor values d) in
  let! r := alloc t in
  let! t' := deref r in
  alloc (unsqueeze0 t').

(** [torch.cat([a, b], dim=0)] *)
Definition cat0 (a b : handle) : M handle :=
  let! ta := deref a in
  let! tb := deref b in
  let! t := lift (torch_cat0 ta tb) in
  alloc t.

(** [t.squeeze(-1)] *)
Definition squeeze_ (r : handle) : M handle :=
  let! t := deref r in alloc (squeeze_last t).

(** [t.contiguous().cuda()], the value the library is given. *)
Definition on_cuda (r : handle) : M (Tensor scalar) :=
  let! c := contiguous r in
  let! g := to_cuda c in
  deref g.

(** *** [rasterize.forward] *)

(** The message of the batch-size assertion names [means], not
    [means3d]: it is looked up in the module globals. *)
Definition batch_size_message (name : string) (input : handle) : M string :=
  match module_means with
  | None => raise (NameError "means")
  | Some g =>
      let! tg := deref g in
      let! _ := lift (shape0 tg) in
      let! ti := deref input in
      let! _ := lift (shape0 ti) in
      ret ("Incorrect shape of input " +:+ name)
  end.

Definition dim_message (name : string) : M string :=
  ret ("Incorrect number of dimensions for input " +:+ name).

(** One round of the validation loop (source lines 56-61). *)
Definition check_input (means3d : handle) (item : string * handle) : M unit :=
  let '(name, input) := item in
  let! ti := deref input in
  let! n := lift (shape0 ti) in
  let! tm := deref means3d in
  let! n0 := lift (shape0 tm) in
  let! _ := assert_ (n =? n0) (batch_size_message name input) in
  assert_ (py_ne (ObjBoundMethod input "dim") (ObjInt 2)) (dim_message name).

(** The dict the loop walks, in insertion order. *)
Definition checked_inputs (means3d scales rotations_quat colors opacity : handle)
  : list (string * handle) :=
  [("means3d"%string, means3d); ("scales"%string, scales);
   ("rotations.quat"%string, rotations_quat); ("colors"%string, colors);
   ("opacity"%string, opacity)].

(** The validation loop (source lines 49-61). *)
Definition validate_inputs (means3d scales rotations_quat colors opacity : handle)
  : M unit :=
  for_each (checked_inputs means3d scales rotations_quat colors opacity)
           (check_input means3d).

(** [torch.cat([m, torch.Tensor([0,0,0,1], device=src.device).unsqueeze(0)], dim=0)] *)
Definition pad_matrix (m src : handle) : M handle :=
  let! t := deref src in
  let! row := new_row [0; 0; 0; 1] (device t) in
  cat0 m row.

(** Padding and checking the two camera matrices (source lines 63-86).
    The row appended to the view matrix is built on the device of the
    projection matrix, as the source has it. *)
Definition prepare_matrices (view_matrix proj_matrix : handle)
  : M (handle * handle) :=
  let! tp := deref proj_matrix in
  let! proj_matrix :=
    (if bool_decide (shape tp = [3; 4]) then pad_matrix proj_matrix proj_matrix
     else ret proj_matrix) in
  let! tv := deref view_matrix in
  let! view_matrix :=
    (if bool_decide (shape tv = [3; 4]) then pad_matrix view_matrix proj_matrix
     else ret view_matrix) in
  let! tp := deref proj_matrix in
  let! _ := assert_ (bool_decide (shape tp = [4; 4]))
              (ret "Incorrect shape for projection matrix"%string) in
  let! tv := deref view_matrix in
  let! _ := assert_ (bool_decide (shape tv = [4; 4]))
              (ret "Incorrect shape for view matrix"%string) in
  ret (view_matrix, proj_matrix).

(** Colour normalisation (source lines 88-89). *)
Definition normalize_colors (colors : handle) : M handle :=
  let! tc := deref colors in
  if decide (dtype tc = uint8) then
    let! f := float_ colors in div_ f 255
  else ret colors.

(** The thirteen arguments of the native call (source lines 103-115),
    evaluated left to right. *)
Definition forward_arguments (means3d scales : handle) (glob_scale : pynum)
    (rotations_quat colors opacity view_matrix proj_matrix : handle)
    (img_height img_width : Z) (fx fy : pynum) (channels : Z) : M FwdArgs :=
  let! x_means3d := on_cuda means3d in
  let! x_scales := on_cuda scales in
  let! x_glob_scale := lift (py_float glob_scale) in
  let! x_quats := on_cuda rotations_quat in
  let! x_colors := on_cuda colors in
  let! x_opacity := on_cuda opacity in
  let! x_view := on_cuda view_matrix in
  let! x_proj := on_cuda proj_matrix in
  let! x_fx := lift (py_float fx) in
  let! x_fy := lift (py_float fy) in
  ret {| a_means3d := x_means3d; a_scales := x_scales;
         a_glob_scale := x_glob_scale; a_rotations_quat := x_quats;
         a_colors := x_colors; a_opacity := x_opacity;
         a_view_matrix := x_view; a_proj_matrix := x_proj;
         a_img_height := img_height; a_img_width := img_width;
         a_fx := x_fx; a_fy := x_fy; a_channels := channels |}.

(** Entering the library: the call is recorded, then the library runs. *)
Definition call_rasterize_forward (a : FwdArgs) : M FwdOuts :=
  let! _ := log_call (FwdCall a) in
  lift (rasterize_forward cuda_lib a).

Definition call_rasterize_backward (b : BwdArgs) : M (Tensor scalar * Tensor scalar) :=
  let! _ := log_call (BwdCall b) in
  lift (rasterize_backward cuda_lib b).

(** The parameters of [forward] after [ctx], in order. *)
Definition forward_params : list string :=
  ["means3d"; "scales"; "glob_scale"; "rotations_quat"; "colors"; "opacity";
   "view_matrix"; "proj_matrix"; "img_height"; "img_width"; "fx"; "fy";
   "channels"]%string.

Definition forward (means3d scales : handle) (glob_scale : pynum)
    (rotations_quat colors opacity view_matrix proj_matrix : handle)
    (img_height img_width : Z) (fx fy : pynum) (channels : Z)
  : M (Z * handle * handle) :=
  let! _ := validate_inputs means3d scales rotations_quat colors opacity in
  let! vp := prepare_matrices view_matrix proj_matrix in
  let view_matrix := fst vp in
  let proj_matrix := snd vp in
  let! colors := normalize_colors colors in
  let! a := forward_arguments means3d scales glob_scale rotations_quat colors
              opacity view_matrix proj_matrix img_height img_width fx fy
              channels in
  let! o := call_rasterize_forward a in
  let! out_img := alloc (o_out_img o) in
  let! out_radii := alloc (o_out_radii o) in
  let! final_Ts := alloc (o_final_Ts o) in
  let! final_idx := alloc (o_final_idx o) in
  let! gaussian_ids_sorted := alloc (o_gaussian_ids_sorted o) in
  let! tile_bins := alloc (o_tile_bins o) in
  let! xy := alloc (o_xy o) in
  let! conics := alloc (o_conics o) in
  let! _ := set_ctx
    {| ctx_num_rendered := o_num_rendered o; ctx_glob_scale := glob_scale;
       ctx_view_matrix := view_matrix; ctx_proj_matrix := proj_matrix;
       ctx_img_width := img_width; ctx_img_height := img_height;
       ctx_fx := fx; ctx_fy := fy; ctx_channels := channels;
       saved_tensors := [colors; means3d; opacity; scales; rotations_quat;
                         out_radii; final_Ts; final_idx; gaussian_ids_sorted;
                         tile_bins; xy; conics] |} in
  ret (o_num_rendered o, out_img, out_radii).

(** *** [rasterize.backward] *)

(** [backward(ctx, _, grad_out_img, grad_out_radii)]: the gradients of
    the three outputs of [forward]; only [grad_out_img] is used.  The
    result is the returned tuple, [None] standing for "no gradient". *)
Definition backward (grad_num_rendered : option handle) (grad_out_img : handle)
    (grad_out_radii : option handle) : M (list (option handle)) :=
  let! c := get_ctx in
  match saved_tensors c with
  | [colors; means3d; opacities; scales; rotations_quat; out_radii;
     final_Ts; final_idx; gaussian_ids_sorted; tile_bins; xy; conics] =>
      let! x_means3d := deref means3d in
      let! x_colors := deref colors in
      let! x_scales := deref scales in
      let! x_grad := deref grad_out_img in
      let! x_ids := deref gaussian_ids_sorted in
      let! x_bins := deref tile_bins in
      let! x_xy := deref xy in
      let! x_conics := deref conics in
      let! x_opacities := deref opacities in
      let! x_final_Ts := deref final_Ts in
      let! x_final_idx := deref final_idx in
      let! v := call_rasterize_backward
        {| b_means3d := x_means3d; b_colors := x_colors; b_scales := x_scales;
           b_grad_out_img := x_grad;
           b_img_height := ctx_img_height c; b_img_width := ctx_img_width c;
           b_fx := ctx_fx c; b_fy := ctx_fy c; b_channels := ctx_channels c;
           b_gaussian_ids_sorted := x_ids; b_tile_bins := x_bins;
           b_xy := x_xy; b_conics := x_conics; b_opacities := x_opacities;
           b_final_Ts := x_final_Ts; b_final_idx := x_final_idx |} in
      let! v_colors := alloc (fst v) in
      let! v_opacity := alloc (snd v) in
      let! v_opacity := squeeze_ v_opacity in
      ret [None;            (* means3d *)
           None;            (* scales *)
           None;            (* glob_scale *)
           None;            (* rotations_quat *)
           Some v_colors;   (* colors *)
           Some v_opacity;  (* opacity *)
           None;            (* view_matrix *)
           None;            (* proj_matrix *)
           None;            (* img_height *)
           None;            (* img_width *)
           None;            (* fx *)
           None]            (* fy *)
  | _ => raise ValueError
  end.

(** *** Relations between states, used to state the frame properties *)

(** [s'] has every tensor of [s], unchanged and under the same handle. *)
Definition heap_extends (s s' : State) : Prop :=
  exists ext, heap s' = heap s ++ ext.

(** As [heap_extends], and neither [ctx] nor the library was touched. *)
Definition grows (s s' : State) : Prop :=
  heap_extends s s' /\ ctx s' = ctx s /\ calls s' = calls s.

(** Every run of [m] relates the state before to the state after,
    whether [m] returns or raises. *)
Definition respects {A} (R : State -> State -> Prop) (m : M A) : Prop :=
  forall s, R s (snd (m s)).

(** The shape of the tuple [backward] returns, for the handles of the two
    gradients it carries. *)
Definition gradient_tuple (v_colors v_opacity : handle) : list (option handle) :=
  [None; None; None; None; Some v_colors; Some v_opacity;
   None; None; None; None; None; None].

(** The leading dimension of a tensor, if it has one. *)
Definition leading (t : Tensor scalar) : option Z := head (shape t).

(** The row [0, 0, 0, 1] as [torch.cat] stores it in a result of dtype [dt]. *)
Definition last_row (dt : Dtype) : list scalar :=
  cast_data dt {| shape := [4]; dtype := float32; device := cpu;
                  is_contiguous := true; data := map of_pyint [0; 0; 0; 1] |}.

(** [t'] is the 3x4 matrix [t] with the row [0, 0, 0, 1] appended. *)
Definition padded_from (t t' : Tensor scalar) : Prop :=
  shape t' = [4; 4] /\
  dtype t' = promote_types (dtype t) float32 /\
  data t' = cast_data (dtype t') t ++ last_row (dtype t').

(** How a camera matrix [t] given by the caller relates to the matrix
    [t'] that [forward] goes on with. *)
Definition matrix_prepared (t t' : Tensor scalar) : Prop :=
  (shape t = [3; 4] /\ padded_from t t') \/ (shape t = [4; 4] /\ t' = t).

(** How the caller's colours [t] relate to the colours [forward] goes on with. *)
Definition colors_prepared (t t' : Tensor scalar) : Prop :=
  (dtype t = uint8 /\ t' = div_pyint (to_float32 t) 255) \/
  (dtype t <> uint8 /\ t' = t).

(** The arguments the library is entered with, prepared from the caller's
    seven tensors. *)
Definition prepared_arguments (a : FwdArgs)
    (tm tsc tq tc to tv tp : Tensor scalar) : Prop :=
  exists tc' tv' tp',
    colors_prepared tc tc' /\ same_content (a_colors a) tc' /\
    matrix_prepared tv tv' /\ same_content (a_view_matrix a) tv' /\
    matrix_prepared tp tp' /\ same_content (a_proj_matrix a) tp' /\
    same_content (a_means3d a) tm /\ same_content (a_scales a) tsc /\
    same_content (a_rotations_quat a) tq /\ same_content (a_opacity a) to.

End Wrapper.

Arguments FwdArgs scalar : clear implicits.
Arguments FwdOuts scalar : clear implicits.
Arguments BwdArgs scalar : clear implicits.
Arguments CudaLib scalar : clear implicits.
Arguments CoreCall scalar : clear implicits.
Arguments State scalar : clear implicits.

End Rasterize.

(* ===================================================================== *)
(** ** The compositing core, modelled from the specification             *)
(* ===================================================================== *)

Module Compositor.
Local Open Scope Q_scope.

(** The native library behind [cuda_lib] is not among the Python sources.
    This module follows sections 4.3 and 4.4 of the specification for one
    pixel and for an image, in exact rational arithmetic.  The Gaussian
    weight [exp(-0.5 d^T conic d)] of an entry at a pixel is taken as given
    with the entry. *)

(** Modelled from the spec: the appearance of a Gaussian (section 3), one
    colour per channel and an opacity; the native code that holds them is
    missing. *)
Record Gaussian := mkGaussian {
  color : list Q;
  opacity : Q;
}.

(** Modelled from the spec: one entry of a pixel's walk through its tile's
    sorted list (section 4.3): which Gaussian, and its weight there. *)
Record Entry := mkEntry {
  gaussian_id : nat;
  weight : Q;
}.

(** Modelled from the spec: the per-pixel render state of section 3. *)
Record Pixel := mkPixel {
  acc : list Q;               (* accumulated colour *)
  T : Q;                      (* transmittance *)
  final_idx : option nat;     (* last entry processed; [None] before the first *)
}.

(** Per-Gaussian gradient buffers. *)
Record Grads := mkGrads {
  d_colors : list (list Q);
  d_opacity : list Q;
}.

(** State of the reverse replay at one pixel. *)
Record Replay := mkReplay {
  T_after : Q;         (* transmittance after the entry about to be replayed *)
  behind : list Q;     (* colour composited behind that entry *)
  grads : Grads;
}.

Definition vadd (a b : list Q) : list Q := zip_with Qplus a b.
Definition vscale (k : Q) (a : list Q) : list Q := map (Qmult k) a.
Definition dot (a b : list Q) : Q := fold_right Qplus 0 (zip_with Qmult a b).

Section Render.
Variables (channels : nat) (gaussians : list Gaussian) (threshold : Q).

(** A Gaussian that is not there contributes nothing. *)
Definition gaussian_at (i : nat) : Gaussian :=
  default {| color := repeat 0 channels; opacity := 0 |} (gaussians !! i).

Definition alpha (e : Entry) : Q :=
  opacity (gaussian_at (gaussian_id e)) * weight e.

Definition start : Pixel :=
  {| acc := repeat 0 channels; T := 1; final_idx := None |}.

(** Modelled from the spec: one step of the forward compositor, which is
    native code missing from the sources (section 4.3):
    [color += T * alpha_i * color_i; T *= (1 - alpha_i)]. *)
Definition blend (st : Pixel) (idx : nat) (e : Entry) : Pixel :=
  {| acc := vadd (acc st)
                 (vscale (T st * alpha e) (color (gaussian_at (gaussian_id e))));
     T := T st * (1 - alpha e);
     final_idx := Some idx |}.

Definition below_threshold (t : Q) : bool := negb (Qle_bool threshold t).

(** Modelled from the spec: the front-to-back walk of the missing forward
    compositor, stopping once [T] has fallen below the threshold and
    recording the last entry processed (section 4.3). *)
Fixpoint composite_from (st : Pixel) (idx : nat) (es : list Entry) : Pixel :=
  match es with
  | [] => st
  | e :: rest =>
      let st' := blend st idx e in
      if below_threshold (T st') then st'
      else composite_from st' (S idx) rest
  end.

Definition composite (es : list Entry) : Pixel := composite_from start 0 es.

(** Modelled from the spec: the transmittance at the start of that walk
    and after every entry the walk processes. *)
Fixpoint transmittances_from (st : Pixel) (idx : nat) (es : list Entry) : list Q :=
  T st ::
  match es with
  | [] => []
  | e :: rest =>
      let st' := blend st idx e in
      if below_threshold (T st') then [T st']
      else transmittances_from st' (S idx) rest
  end.

Definition transmittances (es : list Entry) : list Q :=
  transmittances_from start 0 es.

(** Modelled from the spec: one step of the missing backward compositor
    (section 4.4) for the entry [e] and the pixel's image gradient
    [d_pixel]: [T_before = T_after / (1 - alpha_i)] and
    [d_color_i += T_before * alpha_i * d_pixel].  The spec names the chain
    rule through [alpha_i] without writing it out; this is the derivative
    of the forward formula: the entry's own colour term, minus what its
    alpha takes away from everything composited behind it. *)
Definition replay_step (d_pixel : list Q) (r : Replay) (e : Entry) : Replay :=
  let g := gaussian_at (gaussian_id e) in
  let a := alpha e in
  let T_before := T_after r / (1 - a) in
  let d_alpha :=
    dot d_pixel (vadd (vscale T_before (color g))
                      (vscale (- (1 / (1 - a))) (behind r))) in
  {| T_after := T_before;
     behind := vadd (behind r) (vscale (T_before * a) (color g));
     grads :=
       {| d_colors := alter (fun v => vadd v (vscale (T_before * a) d_pixel))
                            (gaussian_id e) (d_colors (grads r));
          d_opacity := alter (fun x => x + weight e * d_alpha)
                             (gaussian_id e) (d_opacity (grads r)) |} |}.

(** Modelled from the spec: the replay of one pixel by the missing
    backward compositor, from [final_idx] down to the start of the range. *)
Definition backward_pixel (g : Grads) (es : list Entry) (px : Pixel)
    (d_pixel : list Q) : Grads :=
  match final_idx px with
  | None => g
  | Some k =>
      grads (fold_left (replay_step d_pixel) (reverse (take (S k) es))
               {| T_after := T px; behind := repeat 0 channels; grads := g |})
  end.

Definition zero_grads : Grads :=
  {| d_colors := repeat (repeat 0 channels) (length gaussians);
     d_opacity := repeat 0 (length gaussians) |}.

(** Modelled from the spec: the missing [render_forward] on an image, one
    walk per pixel. *)
Definition render_forward (pixels : list (list Entry)) : list Pixel :=
  map composite pixels.

(** Modelled from the spec: the missing [render_backward], gradients
    summed over every pixel into the per-Gaussian buffers. *)
Fixpoint accumulate (g : Grads) (pixels : list (list Entry))
    (saved : list Pixel) (d_image : list (list Q)) : Grads :=
  match pixels, saved, d_image with
  | es :: pixels', px :: saved', d :: d_image' =>
      accumulate (backward_pixel g es px d) pixels' saved' d_image'
  | _, _, _ => g
  end.

Definition render_backward (pixels : list (list Entry)) (saved : list Pixel)
    (d_image : list (list Q)) : Grads :=
  accumulate zero_grads pixels saved d_image.

(** A valid render call: opacities and weights lie in [0,1]. *)
Definition unit_interval (x : Q) : Prop := 0 <= x /\ x <= 1.

Definition valid_gaussians : Prop :=
  Forall (fun g => unit_interval (opacity g)) gaussians.

Definition valid_walk (es : list Entry) : Prop :=
  Forall (fun e => unit_interval (weight e)) es.

(** Every element is at most its predecessor. *)
Fixpoint non_increasing (l : list Q) : Prop :=
  match l with
  | x :: (y :: _) as rest => y <= x /\ non_increasing rest
  | _ => True
  end.



End Render.
End Compositor.

(* ===================================================================== *)
(** ** A concrete instance: rational elements and a library double       *)
(* ===================================================================== *)

Module Instance.
Import Rasterize.

(** Elements as exact rationals; conversions between dtypes keep the value. *)
#[global] Instance Q_ops : ElemOps Q := {
  of_pyint z := inject_Z z;
  convert _ _ x := x;
  true_div x k := (x / inject_Z k)%Q;
}.

Definition filled (sh : list Z) (dt : Dtype) (x : Q) : Tensor Q :=
  {| shape := sh; dtype := dt; device := cuda 0; is_contiguous := true;
     data := repeat x (Z.to_nat (fold_right Z.mul 1 sh)) |}.

(** A stand-in for the native library that renders nothing: outputs of the
    declared shapes, filled with zeros. *)
Definition blank_lib : CudaLib Q :=
  {| rasterize_forward a :=
       let n := hd 0 (shape (a_means3d a)) in
       let h := a_img_height a in
       let w := a_img_width a in
       Ok {| o_num_rendered := 0;
             o_out_img := filled [h; w; a_channels a] float32 0;
             o_out_radii := filled [n] int32 0;
             o_final_Ts := filled [h; w] float32 0;
             o_final_idx := filled [h; w] int32 0;
             o_gaussian_ids_sorted := filled [0] int32 0;
             o_tile_bins := filled [(w + 15) / 16 * ((h + 15) / 16); 2] int32 0;
             o_xy := filled [n; 2] float32 0;
             o_conics := filled [n; 3] float32 0 |};
     rasterize_backward b :=
       let n := hd 0 (shape (b_means3d b)) in
       Ok (filled [n; b_channels b] float32 0, filled [n; 1] float32 0) |}.

Definition tensor (sh : list Z) (dt : Dtype) (dev : Device) (xs : list Q) : Tensor Q :=
  {| shape := sh; dtype := dt; device := dev; is_contiguous := true; data := xs |}.

(** Two Gaussians, 8-bit colours, a 3x4 view matrix and a 4x4 projection
    matrix, everything on the CPU. *)
Definition scene_heap : list (Tensor Q) :=
  [ tensor [2; 3] float32 cpu [0; 0; 0; 1; 1; 1]%Q;          (* 0: means3d *)
    tensor [2; 3] float32 cpu [1; 1; 1; 1; 1; 1]%Q;          (* 1: scales *)
    tensor [2; 4] float32 cpu [1; 0; 0; 0; 1; 0; 0; 0]%Q;    (* 2: rotations_quat *)
    tensor [2; 3] uint8 cpu [255; 0; 0; 0; 51; 255]%Q;       (* 3: colors *)
    tensor [2; 1] float32 cpu [1; 1]%Q;                      (* 4: opacity *)
    tensor [3; 4] float32 cpu [1; 0; 0; 0; 0; 1; 0; 0; 0; 0; 1; 8]%Q;   (* 5: view *)
    tensor [4; 4] float32 cpu
      [1; 0; 0; 0; 0; 1; 0; 0; 0; 0; 1; 0; 0; 0; 0; 1]%Q ].  (* 6: proj *)

Definition scene : State Q := {| heap := scene_heap; ctx := None; calls := [] |}.

(** [forward(ctx, t0, t1, 1, t2, t3, t4, t5, t6, 4, 4, 2, 2, 3)] with the
    module imported (no global [means]) and CUDA device 0 current. *)
Definition run_forward (s : State Q) :=
  forward blank_lib None 0%nat 0%nat 1%nat (PyInt 1) 2%nat 3%nat 4%nat 5%nat 6%nat
    4 4 (PyInt 2) (PyInt 2) 3 s.

(** The scene with the tensor under handle [i] replaced. *)
Definition with_tensor (i : handle) (t : Tensor Q) (s : State Q) : State Q :=
  {| heap := <[i := t]> (heap s); ctx := ctx s; calls := calls s |}.

(** Three colours for two Gaussians. *)
Definition scene_mismatch : State Q :=
  with_tensor 3%nat
    (tensor [3; 3] float32 cpu [1; 0; 0; 0; 1; 0; 0; 0; 1]%Q) scene.

(** A one-dimensional opacity tensor, as the module's own driver builds it. *)
Definition scene_flat_opacity : State Q :=
  with_tensor 4%nat (tensor [2] float32 cpu [1; 1]%Q) scene.

(** A 2x4 view matrix. *)
Definition scene_bad_view : State Q :=
  with_tensor 5%nat (tensor [2; 4] float32 cpu [1; 0; 0; 0; 0; 1; 0; 0]%Q) scene.

(** The projection matrix on CUDA device 0, the 3x4 view matrix on the CPU. *)
Definition scene_split_devices : State Q :=
  with_tensor 6%nat
    (tensor [4; 4] float32 (cuda 0)
       [1; 0; 0; 0; 0; 1; 0; 0; 0; 0; 1; 0; 0; 0; 0; 1]%Q) scene.

(** The colours as [torch.tensor] builds them from Python integers:
    int64, holding the same values between 0 and 255. *)
Definition scene_int64_colors : State Q :=
  with_tensor 3%nat (tensor [2; 3] int64 cpu [255; 0; 0; 0; 51; 255]%Q) scene.

(** The state [forward] leaves, and [backward] run on it with the
    rendered image (all zeros) as the image gradient. *)
Definition after_forward : State Q := snd (run_forward scene).

Definition run_backward (s : State Q) :=
  backward blank_lib None 19%nat None s.

Definition after_backward : State Q := snd (run_backward after_forward).

(** A pixel covered by two half-transparent Gaussians, red in front of
    green, for the compositing model. *)
Definition two_gaussians : list Compositor.Gaussian :=
  [ Compositor.mkGaussian [1; 0; 0]%Q (1 # 2);
    Compositor.mkGaussian [0; 1; 0]%Q (1 # 2) ].

Definition covered_pixel : list Compositor.Entry :=
  [ Compositor.mkEntry 0 1; Compositor.mkEntry 1 1 ].

Definition one_over_255 : Q := 1 # 255.

End Instance.

(* ===================================================================== *)
(** ** Further notions for the wrapper's contract                        *)
(* ===================================================================== *)

Module Contract.
Import Rasterize.

Section Notions.
Context {scalar : Type} `{ElemOps scalar}.

(** Where [t.contiguous().cuda()] leaves a tensor. *)
Definition placed (current_cuda : nat) (t : Tensor scalar) : Prop :=
  device t = cuda current_cuda /\ is_contiguous t = true.

Definition all_placed (current_cuda : nat) (a : FwdArgs scalar) : Prop :=
  placed current_cuda (a_means3d a) /\ placed current_cuda (a_scales a) /\
  placed current_cuda (a_rotations_quat a) /\ placed current_cuda (a_colors a) /\
  placed current_cuda (a_opacity a) /\ placed current_cuda (a_view_matrix a) /\
  placed current_cuda (a_proj_matrix a).

(** Camera matrices that get through [prepare_matrices]: 4x4 anywhere, or
    3x4 with the matrix and the projection matrix on the CPU. *)
Definition camera_ready (tv tp : Tensor scalar) : Prop :=
  (shape tp = [4; 4] \/ (shape tp = [3; 4] /\ device tp = cpu)) /\
  (shape tv = [4; 4] \/
   (shape tv = [3; 4] /\ device tv = cpu /\ device tp = cpu)).

(** The five per-Gaussian tensors have a leading dimension, and the same one. *)
Definition same_batch (tm tsc tq tc to : Tensor scalar) : Prop :=
  exists n, leading tm = Some n /\ leading tsc = Some n /\ leading tq = Some n /\
            leading tc = Some n /\ leading to = Some n.

(** The arguments [backward] enters the library with, in terms of what
    [forward] was given ([tm], [tsc], [to], the dimensions and focal
    lengths), the colours it went on with ([tc']), what the library
    returned to it ([out]) and the image gradient ([tg]). *)
Definition saved_arguments (tm tc' tsc to tg : Tensor scalar)
    (img_height img_width : Z) (fx fy : pynum) (channels : Z)
    (out : FwdOuts scalar) : BwdArgs scalar :=
  {| b_means3d := tm; b_colors := tc'; b_scales := tsc;
     b_grad_out_img := tg;
     b_img_height := img_height; b_img_width := img_width;
     b_fx := fx; b_fy := fy; b_channels := channels;
     b_gaussian_ids_sorted := o_gaussian_ids_sorted out;
     b_tile_bins := o_tile_bins out;
     b_xy := o_xy out; b_conics := o_conics out;
     b_opacities := to;
     b_final_Ts := o_final_Ts out; b_final_idx := o_final_idx out |}.

(** [s'] has every tensor of [s] unchanged, and the same [ctx]. *)
Definition calm (s s' : State scalar) : Prop :=
  heap_extends s s' /\ ctx s' = ctx s.

(** The arguments [backward] enters the library with when [ctx] holds
    [cx], read off the heap [hp]; [None] when a handle it needs is
    missing or [cx] does not hold twelve tensors. *)
Definition backward_arguments (hp : list (Tensor scalar)) (cx : Ctx)
    (grad_out_img : handle) : option (BwdArgs scalar) :=
  match saved_tensors cx with
  | [colors; means3d; opacities; scales; _; _;
     final_Ts; final_idx; gaussian_ids_sorted; tile_bins; xy; conics] =>
      match hp !! means3d, hp !! colors, hp !! scales, hp !! grad_out_img,
            hp !! gaussian_ids_sorted, hp !! tile_bins, hp !! xy, hp !! conics,
            hp !! opacities, hp !! final_Ts, hp !! final_idx with
      | Some x_means3d, Some x_colors, Some x_scales, Some x_grad,
        Some x_ids, Some x_bins, Some x_xy, Some x_conics,
        Some x_opacities, Some x_final_Ts, Some x_final_idx =>
          Some {| b_means3d := x_means3d; b_colors := x_colors;
                  b_scales := x_scales; b_grad_out_img := x_grad;
                  b_img_height := ctx_img_height cx;
                  b_img_width := ctx_img_width cx;
                  b_fx := ctx_fx cx; b_fy := ctx_fy cx;
                  b_channels := ctx_channels cx;
                  b_gaussian_ids_sorted := x_ids; b_tile_bins := x_bins;
                  b_xy := x_xy; b_conics := x_conics;
                  b_opacities := x_opacities;
                  b_final_Ts := x_final_Ts; b_final_idx := x_final_idx |}
      | _, _, _, _, _, _, _, _, _, _, _ => None
      end
  | _ => None
  end.

(** The state a returning [forward] leaves: eight new tensors, the filled
    [ctx] and one more library call, on top of the state [s3] in which
    the library was entered.  [c'], [v'] and [p'] are the colours and the
    camera matrices [forward] went on with. *)
Definition after_library (s3 : State scalar) (a : FwdArgs scalar)
    (out : FwdOuts scalar) (means3d scales : handle) (glob_scale : pynum)
    (rotations_quat c' opacity v' p' : handle) (img_height img_width : Z)
    (fx fy : pynum) (channels : Z) : State scalar :=
  let n := length (heap s3) in
  {| heap := heap s3 ++
             [o_out_img out; o_out_radii out; o_final_Ts out; o_final_idx out;
              o_gaussian_ids_sorted out; o_tile_bins out; o_xy out;
              o_conics out];
     ctx := Some
       {| ctx_num_rendered := o_num_rendered out; ctx_glob_scale := glob_scale;
          ctx_view_matrix := v'; ctx_proj_matrix := p';
          ctx_img_width := img_width; ctx_img_height := img_height;
          ctx_fx := fx; ctx_fy := fy; ctx_channels := channels;
          saved_tensors :=
            [c'; means3d; opacity; scales; rotations_quat;
             (n + 1)%nat; (n + 2)%nat; (n + 3)%nat; (n + 4)%nat;
             (n + 5)%nat; (n + 6)%nat; (n + 7)%nat] |};
     calls := calls s3 ++ [FwdCall a] |}.

End Notions.
End Contract.
Export Contract.

(* ===================================================================== *)
(** ** [vis_image]                                                       *)
(* ===================================================================== *)

Module VisImage.

(** *** [os.path.dirname] for POSIX paths *)

Definition is_sep (c : Ascii.ascii) : bool :=
  Ascii.eqb c (Ascii.ascii_of_nat 47).   (* '/' *)

(** [p[:p.rfind('/') + 1]] *)
Fixpoint upto_last_sep (l : list Ascii.ascii) : list Ascii.ascii :=
  match l with
  | [] => []
  | c :: rest =>
      let h := upto_last_sep rest in
      if is_sep c then c :: h
      else match h with [] => [] | _ => c :: h end
  end.

Fixpoint lstrip_sep (l : list Ascii.ascii) : list Ascii.ascii :=
  match l with
  | c :: rest => if is_sep c then lstrip_sep rest else l
  | [] => []
  end.

(** [head.rstrip('/')] *)
Definition rstrip_sep (l : list Ascii.ascii) : list Ascii.ascii :=
  reverse (lstrip_sep (reverse l)).

Definition dirname (p : string) : string :=
  let head := upto_last_sep (String.list_ascii_of_string p) in
  String.string_of_list_ascii
    (match head with
     | [] => head
     | _ => if forallb is_sep head then head else rstrip_sep head
     end).

(** *** The numpy steps *)

(** [(x * 255).astype(np.uint8)] on one element of an array of dtype [d];
    the rounding and wrapping are numpy's and left to the instance. *)
Class ByteOps (scalar : Type) := {
  to_byte : Dtype -> scalar -> scalar;
}.

Section Vis.
Context {scalar : Type} `{ByteOps scalar}.

(** What [vis_image] is given: a torch tensor, or something else that
    PIL is to take as it is (a numpy array). *)
Inductive image_obj :=
  | TensorImage (t : Tensor scalar)
  | ArrayImage (a : Tensor scalar).

(** [(image.detach().cpu().numpy() * 255).astype(np.uint8)] *)
Definition scaled_bytes (t : Tensor scalar) : Tensor scalar :=
  {| shape := shape t; dtype := uint8; device := cpu;
     is_contiguous := is_contiguous t;
     data := map (to_byte (dtype t)) (data t) |}.

(** From [n] groups of [k] elements each, the third, second and first. *)
Fixpoint pick_bgr (k n : nat) (l : list scalar) : list scalar :=
  match n with
  | O => []
  | S n' =>
      match take k l with
      | x0 :: x1 :: x2 :: _ => [x2; x1; x0]
      | _ => []
      end ++ pick_bgr k n' (drop k l)
  end.

Definition pixel_count (dims : list Z) : nat :=
  Z.to_nat (fold_right Z.mul 1 dims).

(** [a[..., [2, 1, 0]].copy()]: indices 2, 1, 0 along the last axis.  An
    array without axes, or with a last axis shorter than 3, raises. *)
Definition index_bgr (a : Tensor scalar) : result (Tensor scalar) :=
  match reverse (shape a) with
  | [] => Raise IndexError
  | k :: lead_rev =>
      if k <? 3 then Raise IndexError
      else Ok {| shape := reverse lead_rev ++ [3]; dtype := dtype a;
                 device := cpu; is_contiguous := true;
                 data := pick_bgr (Z.to_nat k) (pixel_count lead_rev) (data a) |}
  end.

(** Source lines 213-216: a tensor is scaled, cast and channel-reversed;
    anything else is left alone. *)
Definition to_array (image : image_obj) : result (Tensor scalar) :=
  match image with
  | TensorImage t => index_bgr (scaled_bytes t)
  | ArrayImage a => Ok a
  end.

(** *** The file system and PIL

    Both are outside the repository; [vis_image] is parametric in them.
    An operation that fails may still have changed the file system. *)
Record Outside (FS Img : Type) := mkOutside {
  path_exists : string -> FS -> bool;                  (* [Path(p).exists()] *)
  mkdir : string -> FS -> result unit * FS;            (* [Path(p).mkdir()] *)
  fromarray : Tensor scalar -> result Img;             (* [Image.fromarray(a)] *)
  save : Img -> string -> FS -> result unit * FS;      (* [im.save(p)] *)
}.
Arguments path_exists {FS Img} _ _ _.
Arguments mkdir {FS Img} _ _ _.
Arguments fromarray {FS Img} _ _.
Arguments save {FS Img} _ _ _ _.

Record World (FS : Type) := mkWorld {
  fs : FS;
  stdout : list string;    (* lines printed, oldest first *)
}.
Arguments fs {FS} _.
Arguments stdout {FS} _.
Arguments mkWorld {FS} _ _.

Section Run.
Context {FS Img : Type} (outside : Outside FS Img).

(** Source lines 217-222, for the array [arr] to be saved. *)
Definition save_array (arr : Tensor scalar) (image_path : string) (w : World FS)
  : result unit * World FS :=
  let d := dirname image_path in
  let made :=
    if path_exists outside d (fs w) then (Ok tt, fs w)
    else mkdir outside d (fs w) in
  match made with
  | (Raise e, fs1) => (Raise e, mkWorld fs1 (stdout w))
  | (Ok _, fs1) =>
      match fromarray outside arr with
      | Raise e => (Raise e, mkWorld fs1 (stdout w))
      | Ok im =>
          let printed := stdout w ++ [("saving to:  " +:+ image_path)%string] in
          match save outside im image_path fs1 with
          | (Raise e, fs2) => (Raise e, mkWorld fs2 printed)
          | (Ok _, fs2) => (Ok tt, mkWorld fs2 printed)
          end
      end
  end.

Definition vis_image (image : image_obj) (image_path : string) (w : World FS)
  : result unit * World FS :=
  match to_array image with
  | Raise e => (Raise e, w)
  | Ok arr => save_array arr image_path w
  end.

End Run.

(** An array whose elements are as many as its shape says, the last axis
    having [k] entries. *)
Definition well_formed_pixels (a : Tensor scalar) (lead : list Z) (k : Z) : Prop :=
  shape a = lead ++ [k] /\
  length (data a) = (pixel_count (reverse lead) * Z.to_nat k)%nat.

End Vis.

Arguments image_obj scalar : clear implicits.
Arguments Outside scalar : clear implicits.

End VisImage.

(** Concrete surroundings for [vis_image]: directories and saved files
    by name, and a PIL that takes 8-bit arrays of shape [h, w, 3]. *)
Module VisInstance.
Import VisImage Instance.

#[global] Instance Q_bytes : ByteOps Q := {
  to_byte _ x :=
    inject_Z (Z.modulo (Z.quot (Qnum (x * 255)) (Zpos (Qden (x * 255)))) 256);
}.

Record Disk := mkDisk {
  directories : list string;
  files : list (string * Tensor Q);
}.

Definition disk_outside : Outside Q Disk (Tensor Q) :=
  {| path_exists p d := bool_decide (p ∈ directories d) || bool_decide (p = ""%string);
     mkdir p d := (Ok tt, {| directories := p :: directories d; files := files d |});
     fromarray a :=
       match shape a with
       | [_; _; 3] => if decide (dtype a = uint8) then Ok a
                      else Raise (RuntimeError "Cannot handle this data type")
       | _ => Raise (RuntimeError "Cannot handle this data type")
       end;
     save im p d :=
       (Ok tt, {| directories := directories d; files := (p, im) :: files d |}) |}.

Definition empty_world : World Disk :=
  {| fs := {| directories := []; files := [] |}; stdout := [] |}.

(** One row of two pixels: pure red and a dark grey. *)
Definition two_pixels : Tensor Q :=
  tensor [1; 2; 3] float32 (cuda 0) [1; 0; 0; 1 # 5; 1 # 5; 1 # 5]%Q.


End VisInstance.

(** More doubles and scenes for the wrapper. *)
Module MoreInstance.
Import Rasterize Instance.

(** A library that runs out of memory on every call. *)
Definition failing_lib : CudaLib Q :=
  {| rasterize_forward _ := Raise (RuntimeError "CUDA out of memory");
     rasterize_backward _ := Raise (RuntimeError "CUDA out of memory") |}.

(** What the library was entered with by [run_forward scene]. *)
Definition scene_arguments : option (FwdArgs Q) :=
  match calls after_forward with
  | [FwdCall a] => Some a
  | _ => None
  end.

End MoreInstance.

(* ===================================================================== *)
(** ** Running the wrapper: basic facts about the monad                  *)
(* ===================================================================== *)

Import Rasterize.

Section MonadFacts.
Context {scalar : Type} `{ElemOps scalar}.

#[local] Abbreviation M := (@M scalar).
#[local] Abbreviation State := (State scalar).

Lemma bind_ok {A B} (m : M A) (k : A -> M B) s a s1 :
  m s = (Ok a, s1) -> bind m k s = k a s1.
Proof. intros E. unfold bind. now rewrite E. Qed.

Lemma bind_raise {A B} (m : M A) (k : A -> M B) s e s1 :
  m s = (Raise e, s1) -> bind m k s = (Raise e, s1).
Proof. intros E. unfold bind. now rewrite E. Qed.

Lemma bind_assoc {A B C} (m : M A) (f : A -> M B) (g : B -> M C) s :
  bind (bind m f) g s = bind m (fun x => bind (f x) g) s.
Proof. unfold bind. destruct (m s) as [[a|e] s1]; reflexivity. Qed.

Lemma bind_ok_inv {A B} (m : M A) (k : A -> M B) s b s' :
  bind m k s = (Ok b, s') ->
  exists a s1, m s = (Ok a, s1) /\ k a s1 = (Ok b, s').
Proof.
  unfold bind. destruct (m s) as [[a|e] s1]; intros E.
  - eauto.
  - discriminate.
Qed.

Lemma deref_some r (s : State) t :
  heap s !! r = Some t -> deref r s = (Ok t, s).
Proof. intros E. unfold deref. now rewrite E. Qed.

Lemma deref_ok_inv r (s s' : State) t :
  deref r s = (Ok t, s') -> s' = s /\ heap s !! r = Some t.
Proof.
  unfold deref. destruct (heap s !! r) as [t0|]; intros E; inversion E; auto.
Qed.

Lemma lift_ok_inv {A} (r : result A) (s s' : State) a :
  lift r s = (Ok a, s') -> s' = s /\ r = Ok a.
Proof. unfold lift. intros E. inversion E. auto. Qed.

Lemma assert_ok_inv cond msg (s s' : State) u :
  assert_ cond msg s = (Ok u, s') -> cond = true /\ s' = s.
Proof.
  unfold assert_. destruct cond; intros E.
  - inversion E. auto.
  - apply bind_ok_inv in E as (m & s1 & _ & E). discriminate.
Qed.

(** *** Heaps only grow *)

Lemma heap_extends_refl (s : State) : heap_extends s s.
Proof. exists []. now rewrite app_nil_r. Qed.

Lemma heap_extends_trans (s1 s2 s3 : State) :
  heap_extends s1 s2 -> heap_extends s2 s3 -> heap_extends s1 s3.
Proof.
  intros [e1 E1] [e2 E2]. exists (e1 ++ e2).
  rewrite E2, E1. now rewrite app_assoc.
Qed.

Lemma heap_extends_lookup (s s' : State) r t :
  heap_extends s s' -> heap s !! r = Some t -> heap s' !! r = Some t.
Proof.
  intros [ext E] L. rewrite E. apply lookup_app_l_Some. exact L.
Qed.

Lemma grows_refl (s : State) : grows s s.
Proof. split; [apply heap_extends_refl | auto]. Qed.

Lemma grows_trans (s1 s2 s3 : State) : grows s1 s2 -> grows s2 s3 -> grows s1 s3.
Proof.
  intros (E1 & C1 & L1) (E2 & C2 & L2). split; [|split].
  - eapply heap_extends_trans; eauto.
  - congruence.
  - congruence.
Qed.

Lemma grows_lookup (s s' : State) r t :
  grows s s' -> heap s !! r = Some t -> heap s' !! r = Some t.
Proof. intros (E & _). now apply heap_extends_lookup. Qed.


#[global] Instance heap_extends_preorder : PreOrder (@heap_extends scalar).
Proof.
  split; [exact heap_extends_refl | exact heap_extends_trans].
Qed.

#[global] Instance grows_preorder : PreOrder (@grows scalar).
Proof. split; [exact grows_refl | exact grows_trans]. Qed.

Section Respects.
Context (R : State -> State -> Prop) `{!PreOrder R}.

Lemma respects_ret {A} (a : A) : respects R (ret a).
Proof. intros s. simpl. reflexivity. Qed.

Lemma respects_raise {A} e : respects R (@raise scalar A e).
Proof. intros s. simpl. reflexivity. Qed.

Lemma respects_lift {A} (r : result A) : respects R (lift r).
Proof. intros s. simpl. reflexivity. Qed.

Lemma respects_deref r : respects R (deref r).
Proof. intros s. unfold deref. destruct (heap s !! r); simpl; reflexivity. Qed.

Lemma respects_get_ctx : respects R get_ctx.
Proof. intros s. unfold get_ctx. destruct (ctx s); simpl; reflexivity. Qed.

Lemma respects_bind {A B} (m : M A) (k : A -> M B) :
  respects R m -> (forall a, respects R (k a)) -> respects R (bind m k).
Proof.
  intros Hm Hk s. unfold bind. specialize (Hm s).
  destruct (m s) as [[a|e] s1]; simpl in *.
  - etransitivity; [exact Hm | apply Hk].
  - exact Hm.
Qed.

Lemma respects_assert cond msg :
  respects R msg -> respects R (assert_ cond msg).
Proof.
  intros Hm. unfold assert_. destruct cond.
  - apply respects_ret.
  - apply respects_bind; [exact Hm | intros; apply respects_raise].
Qed.

Lemma respects_for_each {A} (l : list A) body :
  (forall x, respects R (body x)) -> respects R (for_each l body).
Proof.
  intros Hb. induction l as [|x l IH]; simpl.
  - apply respects_ret.
  - apply respects_bind; [apply Hb | intros; exact IH].
Qed.

End Respects.


Lemma grows_alloc (t : Tensor scalar) : respects grows (alloc t).
Proof. intros s. simpl. split; [now exists [t] | auto]. Qed.



Lemma respects_run_grows {A} (m : M A) s r s' :
  respects grows m -> m s = (r, s') -> grows s s'.
Proof. intros Hm E. specialize (Hm s). now rewrite E in Hm. Qed.

Lemma alloc_lookup (t : Tensor scalar) (s : State) :
  heap (snd (alloc t s)) !! length (heap s) = Some t.
Proof. simpl. now apply list_lookup_middle. Qed.

End MonadFacts.

(** Steps through a goal [respects R m] along the structure of [m]. *)
Ltac respects_bind_step :=
  match goal with
  | |- respects ?R (bind _ _) => apply (respects_bind R)
  end.

Ltac respects_leaf :=
  match goal with
  | |- respects ?R (ret _) => apply (respects_ret R)
  | |- respects ?R (raise _) => apply (respects_raise R)
  | |- respects ?R (lift _) => apply (respects_lift R)
  | |- respects ?R (deref _) => apply (respects_deref R)
  | |- respects ?R get_ctx => apply (respects_get_ctx R)
  | |- respects grows (alloc _) => apply grows_alloc
  end.

Ltac respects_structure :=
  repeat first
    [ respects_leaf
    | respects_bind_step; [|intros ?]
    | match goal with
      | |- respects ?R (assert_ _ _) => apply (respects_assert R)
      | |- respects ?R (for_each _ _) => apply (respects_for_each R); intros ?
      | |- respects _ (if ?c then _ else _) => destruct c
      | |- respects _ (match ?c with _ => _ end) => destruct c
      end ].

(** Runs the first computation of a [bind] whose outcome [E] is known. *)
Ltac run_with E := rewrite (bind_ok _ _ _ _ _ E); cbv beta.
Ltac run_with_in E H := rewrite (bind_ok _ _ _ _ _ E) in H; cbv beta in H.

(* ===================================================================== *)
(** ** Facts about [forward]                                             *)
(* ===================================================================== *)

Section ForwardFacts.
Context {scalar : Type} `{ElemOps scalar}.
Context (lib : CudaLib scalar) (module_means : option handle) (current_cuda : nat).

#[local] Abbreviation M := (@M scalar).
#[local] Abbreviation State := (State scalar).
#[local] Abbreviation Tensor := (Tensor scalar).

(** *** The tensor methods allocate and do nothing else *)

Lemma contiguous_quiet r : respects grows (contiguous (scalar:=scalar) r).
Proof. unfold contiguous. respects_structure. Qed.

Lemma to_cuda_quiet r : respects grows (to_cuda (scalar:=scalar) current_cuda r).
Proof. unfold to_cuda. respects_structure. Qed.



Lemma new_row_quiet vs d : respects grows (new_row (scalar:=scalar) vs d).
Proof. unfold new_row. respects_structure. Qed.

Lemma cat0_quiet a b : respects grows (cat0 (scalar:=scalar) a b).
Proof. unfold cat0. respects_structure. Qed.

Lemma squeeze_quiet r : respects grows (squeeze_ (scalar:=scalar) r).
Proof. unfold squeeze_. respects_structure. Qed.

Lemma on_cuda_quiet r : respects grows (on_cuda (scalar:=scalar) current_cuda r).
Proof.
  unfold on_cuda. respects_bind_step; [apply contiguous_quiet | intros c].
  respects_bind_step; [apply to_cuda_quiet | intros g].
  respects_leaf.
Qed.

Lemma pad_matrix_quiet m src : respects grows (pad_matrix (scalar:=scalar) m src).
Proof.
  unfold pad_matrix. respects_bind_step; [respects_leaf | intros t].
  respects_bind_step; [apply new_row_quiet | intros row]. apply cat0_quiet.
Qed.

Lemma prepare_matrices_quiet v p :
  respects grows (prepare_matrices (scalar:=scalar) v p).
Proof.
  unfold prepare_matrices.
  respects_bind_step; [respects_leaf | intros tp].
  respects_bind_step.
  { destruct (bool_decide _); [apply pad_matrix_quiet | respects_leaf]. }
  intros p'. respects_bind_step; [respects_leaf | intros tv].
  respects_bind_step.
  { destruct (bool_decide _); [apply pad_matrix_quiet | respects_leaf]. }
  intros v'. respects_structure.
Qed.


Lemma forward_arguments_quiet m sc gs q c o v p h w fx fy ch :
  respects grows
    (forward_arguments (scalar:=scalar) current_cuda m sc gs q c o v p h w fx fy ch).
Proof.
  unfold forward_arguments.
  repeat first
    [ respects_leaf
    | respects_bind_step; [first [apply on_cuda_quiet | respects_leaf]|intros ?] ].
Qed.

(** The validation loop reads and compares; it leaves the state as it is. *)
Lemma check_input_silent means3d item :
  respects eq (check_input (scalar:=scalar) module_means means3d item).
Proof.
  unfold check_input, batch_size_message, dim_message. destruct item as [name input].
  respects_structure.
Qed.

Lemma validate_inputs_silent m sc q c o :
  respects eq (validate_inputs (scalar:=scalar) module_means m sc q c o).
Proof.
  unfold validate_inputs. apply (respects_for_each eq). intros x.
  apply check_input_silent.
Qed.

(** *** What the blocks of [forward] compute *)

Lemma same_content_refl (t : Tensor) : same_content t t.
Proof. repeat split. Qed.

Lemma same_content_trans (a b c : Tensor) :
  same_content a b -> same_content b c -> same_content a c.
Proof.
  intros (S1 & D1 & X1) (S2 & D2 & X2). repeat split; congruence.
Qed.

Lemma contiguous_spec r (s : State) t :
  heap s !! r = Some t ->
  exists r' s' t', contiguous r s = (Ok r', s') /\ grows s s' /\
    heap s' !! r' = Some t' /\ same_content t' t.
Proof.
  intros L. unfold contiguous. run_with (deref_some _ _ _ L).
  destruct (is_contiguous t).
  - exists r, s, t. repeat split; auto. apply heap_extends_refl.
  - eexists _, _, _. split; [reflexivity|]. split; [apply (grows_alloc _ s)|].
    split; [apply alloc_lookup | repeat split].
Qed.

Lemma to_cuda_spec r (s : State) t :
  heap s !! r = Some t ->
  exists r' s' t', to_cuda current_cuda r s = (Ok r', s') /\ grows s s' /\
    heap s' !! r' = Some t' /\ same_content t' t.
Proof.
  intros L. unfold to_cuda. run_with (deref_some _ _ _ L).
  destruct (decide _).
  - exists r, s, t. repeat split; auto. apply heap_extends_refl.
  - eexists _, _, _. split; [reflexivity|]. split; [apply (grows_alloc _ s)|].
    split; [apply alloc_lookup | repeat split].
Qed.

Lemma on_cuda_spec r (s : State) t :
  heap s !! r = Some t ->
  exists t' s', on_cuda current_cuda r s = (Ok t', s') /\ grows s s' /\
    same_content t' t.
Proof.
  intros L. unfold on_cuda.
  destruct (contiguous_spec r s t L) as (r1 & s1 & t1 & E1 & G1 & L1 & C1).
  destruct (to_cuda_spec r1 s1 t1 L1) as (r2 & s2 & t2 & E2 & G2 & L2 & C2).
  run_with E1. run_with E2.
  exists t2, s2. split; [now apply deref_some|]. split.
  - eapply grows_trans; eauto.
  - eapply same_content_trans; eauto.
Qed.

Lemma normalize_colors_spec c (s : State) tc :
  heap s !! c = Some tc ->
  exists c' s' tc', normalize_colors c s = (Ok c', s') /\ grows s s' /\
    heap s' !! c' = Some tc' /\ colors_prepared tc tc'.
Proof.
  intros L. unfold normalize_colors.
  run_with (deref_some _ _ _ L).
  destruct (decide (dtype tc = uint8)) as [U|U].
  - unfold float_. rewrite bind_assoc. run_with (deref_some _ _ _ L).
    destruct (decide (dtype tc = float32)) as [F|_]; [congruence|].
    set (s1 := snd (alloc (to_float32 tc) s)).
    assert (L1 : heap s1 !! length (heap s) = Some (to_float32 tc))
      by apply alloc_lookup.
    assert (E1 : alloc (to_float32 tc) s = (Ok (length (heap s)), s1)) by reflexivity.
    run_with E1. unfold div_.
    run_with (deref_some _ _ _ L1).
    eexists _, _, _. split; [reflexivity|]. split.
    + eapply grows_trans; [apply (grows_alloc (to_float32 tc) s) | apply (grows_alloc _ s1)].
    + split; [apply alloc_lookup | left; auto].
  - exists c, s, tc. split; [reflexivity|]. split; [apply grows_refl|].
    split; [exact L | right; auto].
Qed.

Lemma cast_data_ext (dt : Dtype) (a b : Tensor) :
  dtype a = dtype b -> data a = data b -> cast_data dt a = cast_data dt b.
Proof. intros D X. unfold cast_data. now rewrite D, X. Qed.

Lemma pad_matrix_ok_inv m src (s s' : State) h tm :
  pad_matrix m src s = (Ok h, s') ->
  heap s !! m = Some tm -> shape tm = [3; 4] ->
  exists t', heap s' !! h = Some t' /\ padded_from tm t'.
Proof.
  intros E L S. unfold pad_matrix in E.
  apply bind_ok_inv in E as (tsrc & s0 & E0 & E).
  apply deref_ok_inv in E0 as [-> Lsrc].
  apply bind_ok_inv in E as (row & s1 & Erow & E).
  assert (G1 : grows s s1) by (pose proof (new_row_quiet [0;0;0;1] (device tsrc) s) as G;
                              now rewrite Erow in G).
  unfold new_row in Erow.
  apply bind_ok_inv in Erow as (t0 & s2 & El & Erow).
  apply lift_ok_inv in El as [-> El].
  unfold legacy_Tensor in El. destruct (device_is_cpu (device tsrc)); [|discriminate].
  inversion El as [Et0]; clear El.
  apply bind_ok_inv in Erow as (r0 & s3 & Ea & Erow).
  assert (L0 : heap s3 !! r0 = Some t0).
  { unfold alloc in Ea. inversion Ea; subst r0 s3. apply alloc_lookup. }
  run_with_in (deref_some _ _ _ L0) Erow.
  assert (Lrow : heap s1 !! row = Some (unsqueeze0 t0)).
  { unfold alloc in Erow. inversion Erow; subst row s1. apply alloc_lookup. }
  unfold cat0 in E.
  run_with_in (deref_some _ _ _ (grows_lookup _ _ _ _ G1 L)) E.
  run_with_in (deref_some _ _ _ Lrow) E.
  apply bind_ok_inv in E as (t' & s4 & Ec & E).
  apply lift_ok_inv in Ec as [-> Ec].
  exists t'. split.
  { unfold alloc in E. inversion E; subst h s'. apply alloc_lookup. }
  unfold torch_cat0 in Ec. rewrite S in Ec. rewrite <- Et0 in Ec. simpl in Ec.
  destruct (negb (bool_decide _)); [discriminate|].
  inversion Ec as [Et']; clear Ec. unfold padded_from. simpl.
  split; [reflexivity|]. split; [reflexivity|].
  f_equal.
Qed.

(** The padding goes through only with both tensors on the CPU: the
    legacy constructor builds the row there and takes no other device, and
    [torch.cat] wants the matrix where the row is. *)
Lemma pad_matrix_ok_devices m src (s s' : State) h tm tsrc :
  pad_matrix m src s = (Ok h, s') ->
  heap s !! m = Some tm -> heap s !! src = Some tsrc -> shape tm = [3; 4] ->
  device tsrc = cpu /\ device tm = cpu.
Proof.
  intros E L Lsrc S. unfold pad_matrix in E.
  run_with_in (deref_some _ _ _ Lsrc) E.
  apply bind_ok_inv in E as (row & s1 & Erow & E).
  assert (G1 : grows s s1)
    by (eapply (respects_run_grows _ s); [apply new_row_quiet | exact Erow]).
  unfold new_row in Erow.
  apply bind_ok_inv in Erow as (t0 & s2 & El & Erow).
  apply lift_ok_inv in El as [-> El].
  unfold legacy_Tensor in El.
  destruct (device tsrc) eqn:Dsrc; simpl in El; [|discriminate].
  inversion El as [Et0]; clear El.
  apply bind_ok_inv in Erow as (r0 & s3 & Ea & Erow).
  assert (L0 : heap s3 !! r0 = Some t0).
  { unfold alloc in Ea. inversion Ea; subst r0 s3. apply alloc_lookup. }
  run_with_in (deref_some _ _ _ L0) Erow.
  assert (Lrow : heap s1 !! row = Some (unsqueeze0 t0)).
  { unfold alloc in Erow. inversion Erow; subst row s1. apply alloc_lookup. }
  unfold cat0 in E.
  run_with_in (deref_some _ _ _ (grows_lookup _ _ _ _ G1 L)) E.
  run_with_in (deref_some _ _ _ Lrow) E.
  apply bind_ok_inv in E as (t' & s4 & Ec & E).
  apply lift_ok_inv in Ec as [-> Ec].
  unfold torch_cat0 in Ec. rewrite S in Ec. rewrite <- Et0 in Ec. simpl in Ec.
  destruct (bool_decide (device tm = cpu)) eqn:B; simpl in Ec; [|discriminate].
  apply bool_decide_eq_true in B. auto.
Qed.

Lemma respects_run {A} (R : State -> State -> Prop) (m : M A) s r s' :
  respects R m -> m s = (r, s') -> R s s'.
Proof. intros Hm E. specialize (Hm s). now rewrite E in Hm. Qed.

Lemma maybe_pad_ok_inv m src (s s' : State) h tm :
  (if bool_decide (shape tm = [3; 4]) then pad_matrix m src else ret m) s
    = (Ok h, s') ->
  heap s !! m = Some tm ->
  grows s s' /\
  exists t', heap s' !! h = Some t' /\
    ((shape tm = [3; 4] /\ padded_from tm t') \/ (shape tm <> [3; 4] /\ t' = tm)).
Proof.
  intros E L. destruct (bool_decide (shape tm = [3; 4])) eqn:B.
  - apply bool_decide_eq_true in B. split.
    + eapply respects_run; [apply pad_matrix_quiet | exact E].
    + destruct (pad_matrix_ok_inv _ _ _ _ _ _ E L B) as (t' & L' & P).
      exists t'. split; [exact L' | left; auto].
  - apply bool_decide_eq_false in B. inversion E; subst h s'.
    split; [apply grows_refl|]. exists tm. split; [exact L | right; auto].
Qed.

Lemma padded_from_shape (t t' : Tensor) : padded_from t t' -> shape t' = [4; 4].
Proof. now intros (S & _). Qed.

Lemma prepare_matrices_ok_inv v p (s s' : State) v' p' tv tp :
  prepare_matrices v p s = (Ok (v', p'), s') ->
  heap s !! v = Some tv -> heap s !! p = Some tp ->
  grows s s' /\
  exists tv' tp', heap s' !! v' = Some tv' /\ heap s' !! p' = Some tp' /\
    matrix_prepared tv tv' /\ matrix_prepared tp tp'.
Proof.
  intros E Lv Lp. unfold prepare_matrices in E.
  run_with_in (deref_some _ _ _ Lp) E.
  apply bind_ok_inv in E as (p1 & s1 & Ep & E).
  destruct (maybe_pad_ok_inv _ _ _ _ _ _ Ep Lp) as (G1 & tp1 & Lp1 & Rp).
  run_with_in (deref_some _ _ _ (grows_lookup _ _ _ _ G1 Lv)) E.
  apply bind_ok_inv in E as (v1 & s2 & Ev & E).
  destruct (maybe_pad_ok_inv _ _ _ _ _ _ Ev (grows_lookup _ _ _ _ G1 Lv))
    as (G2 & tv1 & Lv1 & Rv).
  run_with_in (deref_some _ _ _ (grows_lookup _ _ _ _ G2 Lp1)) E.
  apply bind_ok_inv in E as (u1 & s3 & A1 & E).
  apply assert_ok_inv in A1 as [Sp ->]. apply bool_decide_eq_true in Sp.
  run_with_in (deref_some _ _ _ Lv1) E.
  apply bind_ok_inv in E as (u2 & s4 & A2 & E).
  apply assert_ok_inv in A2 as [Sv ->]. apply bool_decide_eq_true in Sv.
  inversion E; subst v' p' s'.
  split; [eapply grows_trans; eauto|].
  exists tv1, tp1. split; [exact Lv1|]. split; [eapply grows_lookup; eauto|].
  split.
  - destruct Rv as [[S3 P]|[N ->]]; [left; auto | right; auto].
  - destruct Rp as [[S3 P]|[N ->]]; [left; auto | right; auto].
Qed.

(** A camera matrix that is neither 3x4 nor 4x4 stops [prepare_matrices]. *)
Lemma prepare_matrices_rejects v p (s : State) tv tp :
  heap s !! v = Some tv -> heap s !! p = Some tp ->
  (shape tv <> [3; 4] /\ shape tv <> [4; 4]) \/
  (shape tp <> [3; 4] /\ shape tp <> [4; 4]) ->
  exists e s', prepare_matrices v p s = (Raise e, s') /\ grows s s'.
Proof.
  intros Lv Lp Bad.
  destruct (prepare_matrices v p s) as [[[v' p']|e] s'] eqn:E.
  - exfalso.
    destruct (prepare_matrices_ok_inv _ _ _ _ _ _ _ _ E Lv Lp)
      as (_ & tv' & tp' & _ & _ & Rv & Rp).
    destruct Bad as [[N3 N4]|[N3 N4]].
    + destruct Rv as [[S3 _]|[S4 _]]; contradiction.
    + destruct Rp as [[S3 _]|[S4 _]]; contradiction.
  - exists e, s'. split; [reflexivity|].
    eapply respects_run; [apply prepare_matrices_quiet | exact E].
Qed.

(** The row for the view matrix is requested on the device of the
    projection matrix (source line 75), so a 3x4 view matrix is padded
    only when both matrices are on the CPU. *)
Lemma prepare_matrices_view_off_cpu v p (s : State) tv tp :
  heap s !! v = Some tv -> heap s !! p = Some tp ->
  shape tv = [3; 4] -> shape tp = [4; 4] ->
  device tp <> cpu \/ device tv <> cpu ->
  exists e s', prepare_matrices v p s = (Raise e, s') /\ grows s s'.
Proof.
  intros Lv Lp Sv Sp Dev.
  destruct (prepare_matrices v p s) as [[vp|e] s'] eqn:E.
  - exfalso. unfold prepare_matrices in E.
    run_with_in (deref_some _ _ _ Lp) E. rewrite Sp in E.
    rewrite bool_decide_eq_false_2 in E by discriminate.
    assert (Eret : ret p s = (Ok p, s)) by reflexivity.
    run_with_in Eret E.
    run_with_in (deref_some _ _ _ Lv) E. rewrite Sv in E.
    rewrite bool_decide_eq_true_2 in E by reflexivity.
    apply bind_ok_inv in E as (v1 & s1 & Epad & _).
    destruct (pad_matrix_ok_devices _ _ _ _ _ _ _ Epad Lv Lp Sv) as [Dp Dv].
    tauto.
  - exists e, s'. split; [reflexivity|].
    eapply respects_run; [apply prepare_matrices_quiet | exact E].
Qed.

Lemma forward_arguments_ok_inv m sc gs q c o v p h w fx fy ch (s s' : State) a
    tm tsc tq tc to tv tp :
  forward_arguments current_cuda m sc gs q c o v p h w fx fy ch s = (Ok a, s') ->
  heap s !! m = Some tm -> heap s !! sc = Some tsc -> heap s !! q = Some tq ->
  heap s !! c = Some tc -> heap s !! o = Some to -> heap s !! v = Some tv ->
  heap s !! p = Some tp ->
  grows s s' /\
  same_content (a_means3d a) tm /\ same_content (a_scales a) tsc /\
  same_content (a_rotations_quat a) tq /\ same_content (a_colors a) tc /\
  same_content (a_opacity a) to /\ same_content (a_view_matrix a) tv /\
  same_content (a_proj_matrix a) tp /\
  py_float gs = Ok (a_glob_scale a) /\ py_float fx = Ok (a_fx a) /\
  py_float fy = Ok (a_fy a) /\
  a_img_height a = h /\ a_img_width a = w /\ a_channels a = ch.
Proof.
  intros E Lm Lsc Lq Lc Lo Lv Lp.
  split; [eapply respects_run; [apply forward_arguments_quiet | exact E]|].
  unfold forward_arguments in E.
  destruct (on_cuda_spec _ _ _ Lm) as (x1 & s1 & E1 & G1 & C1). run_with_in E1 E.
  destruct (on_cuda_spec _ _ _ (grows_lookup _ _ _ _ G1 Lsc))
    as (x2 & s2 & E2 & G2 & C2). run_with_in E2 E.
  pose proof (grows_trans _ _ _ G1 G2) as G12.
  apply bind_ok_inv in E as (g & s2' & Eg & E). apply lift_ok_inv in Eg as [-> Eg].
  destruct (on_cuda_spec _ _ _ (grows_lookup _ _ _ _ G12 Lq))
    as (x3 & s3 & E3 & G3 & C3). run_with_in E3 E.
  pose proof (grows_trans _ _ _ G12 G3) as G13.
  destruct (on_cuda_spec _ _ _ (grows_lookup _ _ _ _ G13 Lc))
    as (x4 & s4 & E4 & G4 & C4). run_with_in E4 E.
  pose proof (grows_trans _ _ _ G13 G4) as G14.
  destruct (on_cuda_spec _ _ _ (grows_lookup _ _ _ _ G14 Lo))
    as (x5 & s5 & E5 & G5 & C5). run_with_in E5 E.
  pose proof (grows_trans _ _ _ G14 G5) as G15.
  destruct (on_cuda_spec _ _ _ (grows_lookup _ _ _ _ G15 Lv))
    as (x6 & s6 & E6 & G6 & C6). run_with_in E6 E.
  pose proof (grows_trans _ _ _ G15 G6) as G16.
  destruct (on_cuda_spec _ _ _ (grows_lookup _ _ _ _ G16 Lp))
    as (x7 & s7 & E7 & G7 & C7). run_with_in E7 E.
  apply bind_ok_inv in E as (f1 & s8 & Ef1 & E). apply lift_ok_inv in Ef1 as [-> Ef1].
  apply bind_ok_inv in E as (f2 & s9 & Ef2 & E). apply lift_ok_inv in Ef2 as [-> Ef2].
  inversion E; subst a s'. simpl. repeat split; auto; first [apply C1|apply C2|apply C3|apply C4|apply C5|apply C6|apply C7].
Qed.

(** *** The validation loop *)

Lemma check_input_ok_inv means3d name input (s s' : State) u ti tm :
  check_input module_means means3d (name, input) s = (Ok u, s') ->
  heap s !! input = Some ti -> heap s !! means3d = Some tm ->
  exists n, leading ti = Some n /\ leading tm = Some n.
Proof.
  intros E Li Lm. unfold check_input in E.
  run_with_in (deref_some _ _ _ Li) E.
  apply bind_ok_inv in E as (n & s1 & En & E). apply lift_ok_inv in En as [-> En].
  run_with_in (deref_some _ _ _ Lm) E.
  apply bind_ok_inv in E as (n0 & s2 & En0 & E). apply lift_ok_inv in En0 as [-> En0].
  apply bind_ok_inv in E as (u1 & s3 & A & E).
  apply assert_ok_inv in A as [Eq ->]. apply Z.eqb_eq in Eq. subst n0.
  exists n. unfold leading, shape0 in *.
  destruct (shape ti); [discriminate|]. destruct (shape tm); [discriminate|].
  inversion En; inversion En0; subst. auto.
Qed.

Lemma validate_inputs_ok_inv m sc q c o (s s' : State) u tm tsc tq tc to :
  validate_inputs module_means m sc q c o s = (Ok u, s') ->
  heap s !! m = Some tm -> heap s !! sc = Some tsc -> heap s !! q = Some tq ->
  heap s !! c = Some tc -> heap s !! o = Some to ->
  s' = s /\
  exists n, leading tm = Some n /\ leading tsc = Some n /\ leading tq = Some n /\
            leading tc = Some n /\ leading to = Some n.
Proof.
  intros E Lm Lsc Lq Lc Lo.
  split.
  { symmetry. eapply respects_run; [apply validate_inputs_silent | exact E]. }
  unfold validate_inputs, checked_inputs in E. simpl in E.
  assert (Step : forall name input (k : unit -> M unit) (s0 s1 : State) u0 ti,
    s0 = s -> heap s !! input = Some ti ->
    bind (check_input module_means m (name, input)) k s0 = (Ok u0, s1) ->
    (exists n, leading ti = Some n /\ leading tm = Some n) /\
    exists u1, k u1 s = (Ok u0, s1)).
  { intros name input k s0 s1 u0 ti -> Li B.
    apply bind_ok_inv in B as (u1 & s2 & B1 & B2).
    assert (s2 = s) as ->
      by (symmetry; eapply respects_run; [apply check_input_silent | exact B1]).
    split; [eapply check_input_ok_inv; eauto | eauto]. }
  apply Step with (ti := tm) in E as ((n & _ & Hm) & u1 & E); auto.
  apply Step with (ti := tsc) in E as ((n1 & H1 & Hm1) & u2 & E); auto.
  apply Step with (ti := tq) in E as ((n2 & H2 & Hm2) & u3 & E); auto.
  apply Step with (ti := tc) in E as ((n3 & H3 & Hm3) & u4 & E); auto.
  apply Step with (ti := to) in E as ((n4 & H4 & Hm4) & u5 & E); auto.
  exists n. repeat split; congruence.
Qed.

(** Unequal leading dimensions stop the loop, and nothing has happened. *)
Lemma validate_inputs_rejects m sc q c o (s : State) tm tsc tq tc to :
  heap s !! m = Some tm -> heap s !! sc = Some tsc -> heap s !! q = Some tq ->
  heap s !! c = Some tc -> heap s !! o = Some to ->
  leading tsc <> leading tm \/ leading tq <> leading tm \/
  leading tc <> leading tm \/ leading to <> leading tm ->
  exists e, validate_inputs module_means m sc q c o s = (Raise e, s).
Proof.
  intros Lm Lsc Lq Lc Lo Bad.
  destruct (validate_inputs module_means m sc q c o s) as [[u|e] s'] eqn:E.
  - exfalso.
    destruct (validate_inputs_ok_inv _ _ _ _ _ _ _ _ _ _ _ _ _ E Lm Lsc Lq Lc Lo)
      as (_ & n & Hm & Hsc & Hq & Hc & Ho).
    rewrite Hm, Hsc, Hq, Hc, Ho in Bad. tauto.
  - exists e. f_equal. symmetry.
    eapply respects_run; [apply validate_inputs_silent | exact E].
Qed.

(** *** The whole of [forward]

    A run of [forward] either raises before the native library is
    entered, or enters it exactly once with arguments prepared from the
    caller's tensors; in the second case it returns what the library
    returned, or raises what the library raised. *)

Lemma forward_run_inv m sc gs q c o v p h w fx fy ch (s s' : State) r
    tm tsc tq tc to tv tp :
  forward lib module_means current_cuda m sc gs q c o v p h w fx fy ch s
    = (r, s') ->
  heap s !! m = Some tm -> heap s !! sc = Some tsc -> heap s !! q = Some tq ->
  heap s !! c = Some tc -> heap s !! o = Some to -> heap s !! v = Some tv ->
  heap s !! p = Some tp ->
  (is_ok r = false /\ calls s' = calls s /\ ctx s' = ctx s) \/
  exists a,
    calls s' = calls s ++ [FwdCall a] /\
    prepared_arguments a tm tsc tq tc to tv tp /\
    match r with
    | Raise e => rasterize_forward lib a = Raise e /\ ctx s' = ctx s
    | Ok res =>
        exists out, rasterize_forward lib a = Ok out /\
          fst (fst res) = o_num_rendered out /\
          heap s' !! snd (fst res) = Some (o_out_img out) /\
          heap s' !! snd res = Some (o_out_radii out)
    end.
Proof.
  intros E Lm Lsc Lq Lc Lo Lv Lp. unfold forward in E.
  destruct (validate_inputs module_means m sc q c o s) as [[u|e] s0] eqn:Ev.
  2: { rewrite (bind_raise _ _ _ _ _ Ev) in E. inversion E; subst r s'.
       assert (s0 = s) as ->
         by (symmetry; eapply respects_run; [apply validate_inputs_silent | exact Ev]).
       left. auto. }
  destruct (validate_inputs_ok_inv _ _ _ _ _ _ _ _ _ _ _ _ _ Ev Lm Lsc Lq Lc Lo)
    as (-> & _).
  run_with_in Ev E.
  destruct (prepare_matrices v p s) as [[[v' p']|e] s1] eqn:Ep.
  2: { rewrite (bind_raise _ _ _ _ _ Ep) in E. inversion E; subst r s'.
       destruct (respects_run grows _ _ _ _ (prepare_matrices_quiet v p) Ep)
         as (_ & C & L).
       left. auto. }
  run_with_in Ep E. cbv zeta in E. simpl fst in E. simpl snd in E.
  destruct (prepare_matrices_ok_inv _ _ _ _ _ _ _ _ Ep Lv Lp)
    as (G1 & tv' & tp' & Lv' & Lp' & Rv & Rp).
  destruct (normalize_colors_spec _ _ _ (grows_lookup _ _ _ _ G1 Lc))
    as (c' & s2 & tc' & Ec & G2 & Lc' & Rc).
  run_with_in Ec E.
  pose proof (grows_trans _ _ _ G1 G2) as G12.
  destruct (forward_arguments current_cuda m sc gs q c' o v' p' h w fx fy ch s2)
    as [[a|e] s3] eqn:Ea.
  2: { rewrite (bind_raise _ _ _ _ _ Ea) in E. inversion E; subst r s'.
       pose proof (respects_run grows _ _ _ _
                     (forward_arguments_quiet _ _ _ _ _ _ _ _ _ _ _ _ _) Ea) as G3.
       destruct (grows_trans _ _ _ G12 G3) as (_ & C & L).
       left. auto. }
  run_with_in Ea E.
  destruct (forward_arguments_ok_inv _ _ _ _ _ _ _ _ _ _ _ _ _ _ _ _ _ _ _ _ _ _ _
              Ea (grows_lookup _ _ _ _ G12 Lm) (grows_lookup _ _ _ _ G12 Lsc)
              (grows_lookup _ _ _ _ G12 Lq) Lc' (grows_lookup _ _ _ _ G12 Lo)
              (grows_lookup _ _ _ _ G2 Lv') (grows_lookup _ _ _ _ G2 Lp'))
    as (G3 & Cm & Csc & Cq & Cc & Co & Cv & Cp & _).
  destruct (grows_trans _ _ _ G12 G3) as (_ & Ctx & Calls).
  right. exists a.
  assert (Prep : prepared_arguments a tm tsc tq tc to tv tp).
  { exists tc', tv', tp'. repeat (split; [solve [auto]|]). assumption. }
  unfold call_rasterize_forward, bind, log_call, lift, alloc, set_ctx, ret in E.
  simpl in E.
  destruct (rasterize_forward lib a) as [out|e] eqn:Ecore; simpl in E;
    inversion E; subst r s'; clear E; simpl; rewrite Calls.
  - split; [reflexivity|]. split; [exact Prep|].
    exists out. split; [reflexivity|]. split; [reflexivity|]. split.
    + rewrite <- !app_assoc. simpl. now apply list_lookup_middle.
    + rewrite <- !app_assoc. simpl.
      change (heap s3 ++ o_out_img out :: o_out_radii out :: ?l)
        with (heap s3 ++ [o_out_img out] ++ o_out_radii out :: l).
      rewrite app_assoc. apply list_lookup_middle. rewrite length_app. simpl. lia.
  - split; [reflexivity|]. split; [exact Prep|]. split; [reflexivity | exact Ctx].
Qed.


End ForwardFacts.

(* ===================================================================== *)
(** ** Facts about [backward]                                            *)
(* ===================================================================== *)

Section BackwardFacts.
Context {scalar : Type} `{ElemOps scalar}.
Context (lib : CudaLib scalar).

#[local] Abbreviation State := (State scalar).

Lemma backward_ok_inv g1 g g2 (s s' : State) tup :
  backward lib g1 g g2 s = (Ok tup, s') ->
  exists b v vc vo,
    calls s' = calls s ++ [BwdCall b] /\
    heap s !! g = Some (b_grad_out_img b) /\
    rasterize_backward lib b = Ok v /\
    tup = gradient_tuple vc vo /\
    heap s' !! vc = Some (fst v) /\
    heap s' !! vo = Some (squeeze_last (snd v)) /\
    ctx s' = ctx s.
Proof.
  intros E. unfold backward in E.
  apply bind_ok_inv in E as (c & s0 & Ec & E).
  assert (s0 = s) as ->.
  { unfold get_ctx in Ec. destruct (ctx s); inversion Ec; auto. }
  clear Ec.
  destruct (saved_tensors c)
    as [|h1 [|h2 [|h3 [|h4 [|h5 [|h6 [|h7 [|h8 [|h9 [|h10 [|h11 [|h12 [|h13 l]]]]]]]]]]]]];
    try discriminate.
  repeat (let t := fresh "t" in let s1 := fresh "s" in let D := fresh "D" in
          apply bind_ok_inv in E as (t & s1 & D & E);
          apply deref_ok_inv in D as [-> D]).
  apply bind_ok_inv in E as (v & s1 & Ecall & E).
  unfold call_rasterize_backward in Ecall.
  apply bind_ok_inv in Ecall as (u & s2 & Elog & Ecall).
  apply lift_ok_inv in Ecall as [-> Ecore].
  unfold log_call in Elog. inversion Elog; subst s2; clear Elog.
  unfold squeeze_, bind, alloc, deref, ret in E. simpl in E.
  rewrite list_lookup_middle in E by (rewrite length_app; simpl; lia).
  inversion E; subst tup s'; clear E. simpl.
  eexists _, v, _, _. split; [reflexivity|]. split; [simpl; eassumption|].
  split; [exact Ecore|]. split; [reflexivity|].
  split; [|split; [|reflexivity]].
  - rewrite <- !app_assoc. simpl. now apply list_lookup_middle.
  - apply list_lookup_middle. rewrite !length_app. simpl. lia.
Qed.

Lemma squeeze_last_data (t : Tensor scalar) : data (squeeze_last t) = data t.
Proof.
  unfold squeeze_last.
  destruct (reverse (shape t)) as [|[|[| |]|] rest]; reflexivity.
Qed.

(** The wrapper hands on the elements of the two gradients the library
    computed, untouched. *)
Lemma backward_returns_library_elements g1 g g2 (s s' : State) tup :
  backward lib g1 g g2 s = (Ok tup, s') ->
  exists b v vc vo tc to,
    rasterize_backward lib b = Ok v /\
    heap s !! g = Some (b_grad_out_img b) /\
    tup !! 4%nat = Some (Some vc) /\ tup !! 5%nat = Some (Some vo) /\
    heap s' !! vc = Some tc /\ heap s' !! vo = Some to /\
    data tc = data (fst v) /\ data to = data (snd v).
Proof.
  intros E.
  destruct (backward_ok_inv _ _ _ _ _ _ E)
    as (b & v & vc & vo & _ & Lg & Ecore & -> & Lc & Lo & _).
  exists b, v, vc, vo, (fst v), (squeeze_last (snd v)).
  repeat (split; [solve [auto]|]). apply squeeze_last_data.
Qed.

End BackwardFacts.

(* ===================================================================== *)
(** ** The wrapper's contract                                            *)
(* ===================================================================== *)

Section WrapperContract.
Context {scalar : Type} `{ElemOps scalar}.
Context (lib : CudaLib scalar) (module_means : option handle) (current_cuda : nat).

#[local] Abbreviation State := (State scalar).
#[local] Abbreviation Tensor := (Tensor scalar).

(** C1.  When one of the per-Gaussian tensors has a leading dimension
    other than that of [means3d], [forward] raises, and the state it
    leaves is the state it found: the native library has not been
    entered, no tensor has been built and [ctx] is untouched. *)
Theorem forward_rejects_batch_mismatch
    m sc gs q c o v p h w fx fy ch (s : State) (tm tsc tq tc to : Tensor) :
  heap s !! m = Some tm -> heap s !! sc = Some tsc -> heap s !! q = Some tq ->
  heap s !! c = Some tc -> heap s !! o = Some to ->
  leading tsc <> leading tm \/ leading tq <> leading tm \/
  leading tc <> leading tm \/ leading to <> leading tm ->
  exists e,
    forward lib module_means current_cuda m sc gs q c o v p h w fx fy ch s
      = (Raise e, s).
Proof.
  intros Lm Lsc Lq Lc Lo Bad.
  destruct (validate_inputs_rejects module_means _ _ _ _ _ _ _ _ _ _ _
              Lm Lsc Lq Lc Lo Bad) as (e & E).
  exists e. unfold forward. now apply bind_raise.
Qed.

(** C7.  When the view matrix or the projection matrix is neither 3x4
    nor 4x4, [forward] raises; the native library has not been entered
    and [ctx] is untouched. *)
Theorem forward_rejects_bad_camera_matrix
    m sc gs q c o v p h w fx fy ch (s : State) (tv tp : Tensor) :
  heap s !! v = Some tv -> heap s !! p = Some tp ->
  (shape tv <> [3; 4] /\ shape tv <> [4; 4]) \/
  (shape tp <> [3; 4] /\ shape tp <> [4; 4]) ->
  exists e s',
    forward lib module_means current_cuda m sc gs q c o v p h w fx fy ch s
      = (Raise e, s') /\
    calls s' = calls s /\ ctx s' = ctx s.
Proof.
  intros Lv Lp Bad. unfold forward.
  destruct (validate_inputs module_means m sc q c o s) as [[u|e] s0] eqn:E.
  - assert (s0 = s) as ->
      by (symmetry; eapply respects_run; [apply validate_inputs_silent | exact E]).
    run_with E.
    destruct (prepare_matrices_rejects _ _ _ _ _ Lv Lp Bad) as (e & s' & Ep & G).
    exists e, s'. split; [now apply bind_raise|]. destruct G as (_ & C & L). auto.
  - assert (s0 = s) as ->
      by (symmetry; eapply respects_run; [apply validate_inputs_silent | exact E]).
    exists e, s. split; [now apply bind_raise | auto].
Qed.

(** C4, as the code has it.  [forward] enters the native library at most
    once.  When it does, colours of dtype uint8, and of no other dtype,
    are handed over converted to float32 and divided by 255, element by
    element; colours of every other dtype, floating or integral (int8,
    int16, int32, int64), are handed over with the dtype and the elements
    they came with, whatever values they hold.  When it does not, it has
    raised. *)
Theorem forward_normalizes_uint8_colors
    m sc gs q c o v p h w fx fy ch (s s' : State) r
    (tm tsc tq tc to tv tp : Tensor) :
  heap s !! m = Some tm -> heap s !! sc = Some tsc -> heap s !! q = Some tq ->
  heap s !! c = Some tc -> heap s !! o = Some to -> heap s !! v = Some tv ->
  heap s !! p = Some tp ->
  forward lib module_means current_cuda m sc gs q c o v p h w fx fy ch s
    = (r, s') ->
  (is_ok r = false /\ calls s' = calls s) \/
  exists a,
    calls s' = calls s ++ [FwdCall a] /\
    (dtype tc = uint8 ->
       shape (a_colors a) = shape tc /\
       dtype (a_colors a) = float32 /\
       data (a_colors a) =
         map (fun x => true_div (convert uint8 float32 x) 255) (data tc)) /\
    (dtype tc <> uint8 -> same_content (a_colors a) tc).
Proof.
  intros Lm Lsc Lq Lc Lo Lv Lp E.
  destruct (forward_run_inv lib module_means current_cuda
              _ _ _ _ _ _ _ _ _ _ _ _ _ _ _ _ _ _ _ _ _ _ _
              E Lm Lsc Lq Lc Lo Lv Lp)
    as [(F & Calls & _)|(a & Calls & (tc' & tv' & tp' & Rc & (Sc & Dc & Xc) & _) & _)].
  { left. auto. }
  right. exists a. split; [exact Calls|]. split.
  - intros U.
    destruct Rc as [[_ ->]|[N _]]; [|contradiction].
    rewrite Sc, Dc, Xc. unfold div_pyint, to_float32, cast_data. simpl.
    rewrite U. simpl. split; [reflexivity|]. split; [reflexivity|].
    now rewrite map_map.
  - intros N.
    destruct Rc as [[U _]|[_ ->]]; [contradiction|].
    repeat split; assumption.
Qed.

(** What the library receives for the camera matrices.  [forward]
    enters the native library at most once.  When it
    does, a 3x4 view or projection matrix is handed over as a 4x4 matrix
    whose first three rows are the caller's and whose last row is
    [0, 0, 0, 1], and a 4x4 matrix is handed over with the elements it
    came with.  When it does not, it has raised. *)
Theorem forward_pads_camera_matrices
    m sc gs q c o v p h w fx fy ch (s s' : State) r
    (tm tsc tq tc to tv tp : Tensor) :
  heap s !! m = Some tm -> heap s !! sc = Some tsc -> heap s !! q = Some tq ->
  heap s !! c = Some tc -> heap s !! o = Some to -> heap s !! v = Some tv ->
  heap s !! p = Some tp ->
  forward lib module_means current_cuda m sc gs q c o v p h w fx fy ch s
    = (r, s') ->
  (is_ok r = false /\ calls s' = calls s) \/
  exists a,
    calls s' = calls s ++ [FwdCall a] /\
    (shape tv = [3; 4] -> padded_from tv (a_view_matrix a)) /\
    (shape tv = [4; 4] -> same_content (a_view_matrix a) tv) /\
    (shape tp = [3; 4] -> padded_from tp (a_proj_matrix a)) /\
    (shape tp = [4; 4] -> same_content (a_proj_matrix a) tp).
Proof.
  intros Lm Lsc Lq Lc Lo Lv Lp E.
  destruct (forward_run_inv lib module_means current_cuda
              _ _ _ _ _ _ _ _ _ _ _ _ _ _ _ _ _ _ _ _ _ _ _
              E Lm Lsc Lq Lc Lo Lv Lp)
    as [(F & Calls & _)
       |(a & Calls & (tc' & tv' & tp' & _ & _ & Rv & Cv & Rp & Cp & _) & _)].
  { left. auto. }
  assert (Pad : forall t t' x : Tensor,
            matrix_prepared t t' -> same_content x t' ->
            (shape t = [3; 4] -> padded_from t x) /\
            (shape t = [4; 4] -> same_content x t)).
  { intros t t' x R (Sx & Dx & Xx). split; intros S.
    - destruct R as [[_ (S4 & D4 & X4)]|[S4 _]]; [|rewrite S in S4; discriminate].
      unfold padded_from. rewrite Sx, Dx, Xx. auto.
    - destruct R as [[S3 _]|[_ ->]]; [rewrite S in S3; discriminate|].
      repeat split; assumption. }
  right. exists a. split; [exact Calls|].
  destruct (Pad _ _ _ Rv Cv) as [V3 V4]. destruct (Pad _ _ _ Rp Cp) as [P3 P4].
  auto.
Qed.

(** C6.  The padding of the view matrix is not carried out for every
    call: the appended row is built on the device of the projection
    matrix, so with a 3x4 view matrix and a 4x4 projection matrix on
    different devices [forward] raises while padding, and the native
    library is never entered. *)
Theorem forward_view_padding_fails_across_devices
    m sc gs q c o v p h w fx fy ch (s : State) (tv tp : Tensor) :
  heap s !! v = Some tv -> heap s !! p = Some tp ->
  shape tv = [3; 4] -> shape tp = [4; 4] ->
  device tv <> device tp ->
  exists e s',
    forward lib module_means current_cuda m sc gs q c o v p h w fx fy ch s
      = (Raise e, s') /\
    calls s' = calls s.
Proof.
  intros Lv Lp Sv Sp Dev. unfold forward.
  assert (Off : device tp <> cpu \/ device tv <> cpu).
  { destruct (decide (device tp = cpu)) as [Ep|Np]; [|auto].
    right. intros Ev. apply Dev. congruence. }
  destruct (validate_inputs module_means m sc q c o s) as [[u|e] s0] eqn:E;
    assert (s0 = s) as ->
      by (symmetry; eapply respects_run; [apply validate_inputs_silent | exact E]).
  - run_with E.
    destruct (prepare_matrices_view_off_cpu _ _ _ _ _ Lv Lp Sv Sp Off)
      as (e & s' & Ep & G).
    exists e, s'. split; [now apply bind_raise|]. now destruct G as (_ & _ & L).
  - exists e, s. split; [now apply bind_raise | reflexivity].
Qed.


(** C3.  The tuple [backward] returns has twelve entries: the colour
    gradient fifth, the opacity gradient sixth, [None] elsewhere.
    [forward] has thirteen parameters, and the thirteenth, [channels],
    has no entry. *)
Theorem backward_returns_twelve_gradients g1 g g2 (s s' : State) tup :
  backward lib g1 g g2 s = (Ok tup, s') ->
  (exists vc vo b grads,
     tup = [None; None; None; None; Some vc; Some vo;
            None; None; None; None; None; None] /\
     rasterize_backward lib b = Ok grads /\
     heap s' !! vc = Some (fst grads) /\
     heap s' !! vo = Some (squeeze_last (snd grads))) /\
  length tup = 12%nat /\
  length forward_params = 13%nat /\
  forward_params !! 12%nat = Some "channels"%string /\
  tup !! 12%nat = None.
Proof.
  intros E.
  destruct (backward_ok_inv _ _ _ _ _ _ _ E)
    as (b & v & vc & vo & _ & _ & Ecore & -> & Lc & Lo & _).
  split.
  - exists vc, vo, b, v. auto.
  - repeat split.
Qed.

(** C5.  The opacity gradient [backward] returns is the library's
    [d_opacity] with its last dimension squeezed away: when the library
    returns shape [N, 1], the caller receives the same elements under
    shape [N], not [N, 1], and for an opacity input of shape [N, 1] the
    gradient does not have the shape of the tensor it is the gradient
    of. *)
Theorem backward_opacity_gradient_is_squeezed g1 g g2 (s s' : State) tup :
  backward lib g1 g g2 s = (Ok tup, s') ->
  exists b v vo t,
    calls s' = calls s ++ [BwdCall b] /\
    rasterize_backward lib b = Ok v /\
    tup !! 5%nat = Some (Some vo) /\
    heap s' !! vo = Some t /\
    data t = data (snd v) /\
    (forall n, shape (snd v) = [n; 1] ->
       shape t = [n] /\ shape t <> [n; 1] /\
       (shape (b_opacities b) = [n; 1] -> shape t <> shape (b_opacities b))).
Proof.
  intros E.
  destruct (backward_ok_inv _ _ _ _ _ _ _ E)
    as (b & v & vc & vo & Calls & _ & Ecore & -> & _ & Lo & _).
  exists b, v, vo, (squeeze_last (snd v)).
  split; [exact Calls|]. split; [exact Ecore|]. split; [reflexivity|].
  split; [exact Lo|]. unfold squeeze_last. split.
  - destruct (reverse (shape v.2)) as [|[|[| |]|] rest]; reflexivity.
  - intros n S. rewrite S. simpl.
    split; [reflexivity|]. split; [intros E'; inversion E'|].
    intros So. rewrite So. intros E'; inversion E'.
Qed.

End WrapperContract.

(* ===================================================================== *)
(** ** The contract on concrete calls                                    *)
(* ===================================================================== *)

Section ConcreteCalls.
Import Instance.

Lemma run_forward_scene :
  forward blank_lib None 0%nat 0%nat 1%nat (PyInt 1) 2%nat 3%nat 4%nat 5%nat 6%nat
    4 4 (PyInt 2) (PyInt 2) 3 scene
  = (Ok (0, 19%nat, 20%nat), after_forward).
Proof. vm_compute. reflexivity. Qed.

Lemma run_backward_after_forward :
  backward blank_lib None 19%nat None after_forward
  = (Ok (gradient_tuple 27%nat 29%nat), after_backward).
Proof. vm_compute. reflexivity. Qed.

Lemma forward_rejects_batch_mismatch_witness :
  leading (tensor [3; 3] float32 cpu [1; 0; 0; 0; 1; 0; 0; 0; 1]%Q)
    <> leading (tensor [2; 3] float32 cpu [0; 0; 0; 1; 1; 1]%Q) /\
  exists e, run_forward scene_mismatch = (Raise e, scene_mismatch).
Proof.
  split; [vm_compute; congruence|].
  unfold run_forward.
  eapply (forward_rejects_batch_mismatch blank_lib None 0%nat
            0%nat 1%nat (PyInt 1) 2%nat 3%nat 4%nat 5%nat 6%nat 4 4
            (PyInt 2) (PyInt 2) 3 scene_mismatch);
    [reflexivity | reflexivity | reflexivity | reflexivity | reflexivity |].
  right; right; left. vm_compute. congruence.
Defined.

Lemma forward_rejects_bad_camera_matrix_witness :
  exists e s', run_forward scene_bad_view = (Raise e, s') /\
               calls s' = [] /\ ctx s' = None.
Proof.
  unfold run_forward.
  eapply (forward_rejects_bad_camera_matrix blank_lib None 0%nat
            0%nat 1%nat (PyInt 1) 2%nat 3%nat 4%nat 5%nat 6%nat 4 4
            (PyInt 2) (PyInt 2) 3 scene_bad_view);
    [reflexivity | reflexivity |].
  left. split; vm_compute; congruence.
Defined.

Lemma forward_normalizes_uint8_colors_witness :
  exists a, calls after_forward = [FwdCall a] /\
            dtype (a_colors a) = float32 /\
            data (a_colors a)
              = [255 # 255; 0 # 255; 0 # 255; 0 # 255; 51 # 255; 255 # 255]%Q.
Proof.
  edestruct (forward_normalizes_uint8_colors blank_lib None 0%nat
               0%nat 1%nat (PyInt 1) 2%nat 3%nat 4%nat 5%nat 6%nat 4 4
               (PyInt 2) (PyInt 2) 3 scene after_forward (Ok (0, 19%nat, 20%nat)))
    as [(F & _)|(a & Calls & Int & _)].
  1-7: reflexivity.
  { exact run_forward_scene. }
  { discriminate F. }
  exists a. split; [exact Calls|].
  destruct Int as (_ & D & X); [reflexivity|].
  split; [exact D | exact X].
Defined.

(** C4 as the specification words it fails on this call: the colours are
    of an integral dtype, int64, with every value between 0 and 255, and
    the library is entered with them as they are, still int64 and not
    divided by 255. *)
Lemma forward_integral_colors_counterexample :
  exists res s' a tc,
    heap scene_int64_colors !! 3%nat = Some tc /\
    is_integral (dtype tc) = true /\
    Forall (fun x => 0 <= x /\ x <= 255)%Q (data tc) /\
    run_forward scene_int64_colors = (Ok res, s') /\
    calls s' = [FwdCall a] /\
    dtype (a_colors a) = int64 /\
    data (a_colors a) = data tc /\
    ~ Forall2 Qeq (data (a_colors a))
        (map (fun x => true_div (convert (dtype tc) float32 x) 255) (data tc)).
Proof.
  eexists _, _, _, _.
  split; [reflexivity|]. split; [reflexivity|].
  split.
  { repeat constructor; unfold Qle; simpl; lia. }
  split; [vm_compute; reflexivity|]. split; [reflexivity|].
  split; [reflexivity|]. split; [reflexivity|].
  intros F. apply Forall2_cons_1 in F. destruct F as [F _].
  vm_compute in F. discriminate F.
Qed.

Lemma forward_pads_camera_matrices_on_scene :
  exists a, calls after_forward = [FwdCall a] /\
            shape (a_view_matrix a) = [4; 4] /\
            data (a_view_matrix a)
              = [1; 0; 0; 0;  0; 1; 0; 0;  0; 0; 1; 8;  0; 0; 0; 1]%Q /\
            data (a_proj_matrix a)
              = [1; 0; 0; 0;  0; 1; 0; 0;  0; 0; 1; 0;  0; 0; 0; 1]%Q.
Proof.
  edestruct (forward_pads_camera_matrices blank_lib None 0%nat
               0%nat 1%nat (PyInt 1) 2%nat 3%nat 4%nat 5%nat 6%nat 4 4
               (PyInt 2) (PyInt 2) 3 scene after_forward (Ok (0, 19%nat, 20%nat)))
    as [(F & _)|(a & Calls & V3 & _ & _ & P4)].
  1-7: reflexivity.
  { exact run_forward_scene. }
  { discriminate F. }
  exists a. split; [exact Calls|].
  destruct (V3 eq_refl) as (S & D & X). destruct (P4 eq_refl) as (_ & _ & XP).
  split; [exact S|]. split; [|exact XP].
  rewrite X, D. reflexivity.
Defined.


Lemma backward_returns_twelve_gradients_witness :
  length (gradient_tuple 27%nat 29%nat) = 12%nat /\
  length forward_params = 13%nat /\
  gradient_tuple 27%nat 29%nat !! 12%nat = None.
Proof.
  destruct (backward_returns_twelve_gradients blank_lib None 19%nat None
              after_forward after_backward (gradient_tuple 27%nat 29%nat)
              run_backward_after_forward)
    as (_ & L12 & L13 & _ & N).
  auto.
Defined.

Lemma backward_opacity_gradient_is_squeezed_witness :
  exists vo t, gradient_tuple 27%nat 29%nat !! 5%nat = Some (Some vo) /\
               heap after_backward !! vo = Some t /\
               shape t = [2].
Proof.
  destruct (backward_opacity_gradient_is_squeezed blank_lib None 19%nat None
              after_forward after_backward (gradient_tuple 27%nat 29%nat)
              run_backward_after_forward)
    as (b & v & vo & t & Calls & Ecore & Tup & L & X & S).
  exists vo, t. split; [exact Tup|]. split; [exact L|].
  simpl in Tup. inversion Tup; subst vo.
  vm_compute in L. inversion L. reflexivity.
Defined.

(** The squeeze on a concrete call: two Gaussians, an opacity input of
    shape [2, 1], a library that returns [d_opacity] of shape [2, 1], and
    the caller receives a gradient of shape [2]. *)
Lemma backward_opacity_gradient_shape_counterexample :
  exists vo t to,
    backward blank_lib None 19%nat None after_forward
      = (Ok (gradient_tuple 27%nat vo), after_backward) /\
    heap scene !! 4%nat = Some to /\ shape to = [2; 1] /\
    heap after_backward !! vo = Some t /\
    shape t <> [2; 1].
Proof.
  exists 29%nat, (filled [2] float32 0), (tensor [2; 1] float32 cpu [1; 1]%Q).
  split; [apply run_backward_after_forward|].
  split; [reflexivity|]. split; [reflexivity|].
  split; [vm_compute; reflexivity|].
  vm_compute. congruence.
Qed.

Lemma forward_view_padding_fails_across_devices_witness :
  exists e s', run_forward scene_split_devices = (Raise e, s') /\ calls s' = [].
Proof.
  unfold run_forward.
  eapply (forward_view_padding_fails_across_devices blank_lib None 0%nat
            0%nat 1%nat (PyInt 1) 2%nat 3%nat 4%nat 5%nat 6%nat 4 4
            (PyInt 2) (PyInt 2) 3 scene_split_devices);
    [reflexivity | reflexivity | reflexivity | reflexivity |].
  vm_compute. congruence.
Defined.

(** The dimension assertion compares a bound method with 2 and cannot fail. *)
Lemma dimension_assertion_always_passes (input : handle) :
  py_ne (ObjBoundMethod input "dim") (ObjInt 2) = true.
Proof. reflexivity. Qed.

(** C2 on a call of the kind the module's own driver makes: the opacity
    tensor is one-dimensional, every assertion passes and the native
    library is entered with it. *)
Theorem forward_accepts_one_dimensional_opacity :
  exists res s' a to,
    heap scene_flat_opacity !! 4%nat = Some to /\ shape to = [2] /\
    run_forward scene_flat_opacity = (Ok res, s') /\
    calls s' = [FwdCall a] /\
    shape (a_opacity a) = [2].
Proof.
  eexists _, _, _, _.
  split; [reflexivity|]. split; [reflexivity|].
  split; [vm_compute; reflexivity|]. split; reflexivity.
Qed.

End ConcreteCalls.

(* ===================================================================== *)
(** ** The compositing core: transmittance and zero gradients            *)
(* ===================================================================== *)

Section CompositorFacts.
Import Compositor.
Local Open Scope Q_scope.
Context (channels : nat) (gaussians : list Gaussian) (threshold : Q).

#[local] Abbreviation alpha := (alpha channels gaussians).
#[local] Abbreviation blend := (blend channels gaussians).
#[local] Abbreviation gaussian_at := (gaussian_at channels gaussians).

Lemma gaussian_at_opacity i :
  valid_gaussians gaussians -> unit_interval (opacity (gaussian_at i)).
Proof.
  intros V. unfold Compositor.gaussian_at.
  destruct (gaussians !! i) as [g|] eqn:L; simpl.
  - eapply (Forall_lookup_1 _ _ _ _ V). exact L.
  - split; [apply Qle_refl | discriminate].
Qed.

Lemma alpha_unit e :
  valid_gaussians gaussians -> unit_interval (weight e) -> unit_interval (alpha e).
Proof.
  intros V [W0 W1]. destruct (gaussian_at_opacity (gaussian_id e) V) as [O0 O1].
  unfold Compositor.alpha. split; nra.
Qed.

(** One blend takes a transmittance in [0,1] to one in [0,1] that is no larger. *)
Lemma blend_T st idx e :
  unit_interval (T st) -> unit_interval (alpha e) ->
  unit_interval (T (blend st idx e)) /\ T (blend st idx e) <= T st.
Proof.
  intros [T0 T1] [A0 A1]. simpl.
  assert (B0 : 0 <= 1 - alpha e) by lra.
  assert (B1 : 1 - alpha e <= 1) by lra.
  split; [split|]; nra.
Qed.

Lemma transmittances_from_head st idx es :
  head (transmittances_from channels gaussians threshold st idx es) = Some (T st).
Proof. destruct es; reflexivity. Qed.

Lemma transmittances_from_bounds es : forall st idx,
  valid_gaussians gaussians -> valid_walk es -> unit_interval (T st) ->
  Forall unit_interval (transmittances_from channels gaussians threshold st idx es) /\
  non_increasing (transmittances_from channels gaussians threshold st idx es).
Proof.
  induction es as [|e rest IH]; intros st idx V W U.
  - simpl. split; [constructor; [exact U | constructor] | exact I].
  - apply Forall_cons in W as [We Wrest].
    destruct (blend_T st idx e U (alpha_unit e V We)) as [U' Le].
    cbn [transmittances_from].
    destruct (below_threshold threshold (T (blend st idx e))).
    + split.
      * constructor; [exact U | constructor; [exact U' | constructor]].
      * simpl. split; [exact Le | exact I].
    + destruct (IH (blend st idx e) (S idx) V Wrest U') as [F N].
      split; [constructor; assumption|].
      pose proof (transmittances_from_head (blend st idx e) (S idx) rest) as Hd.
      destruct (transmittances_from channels gaussians threshold
                  (blend st idx e) (S idx) rest) as [|y l] eqn:E.
      * discriminate.
      * simpl in Hd. inversion Hd; subst y. simpl. split; [exact Le | exact N].
Qed.

(** The last transmittance of the walk is the one the pixel is left with. *)
Lemma transmittances_from_last es : forall st idx,
  last (transmittances_from channels gaussians threshold st idx es)
  = Some (T (composite_from channels gaussians threshold st idx es)).
Proof.
  induction es as [|e rest IH]; intros st idx.
  - reflexivity.
  - cbn [transmittances_from composite_from].
    destruct (below_threshold threshold (T (blend st idx e))).
    + reflexivity.
    + rewrite <- IH.
      destruct (transmittances_from channels gaussians threshold
                  (blend st idx e) (S idx) rest) eqn:E; [|reflexivity].
      pose proof (transmittances_from_head (blend st idx e) (S idx) rest) as Hd.
      rewrite E in Hd. discriminate.
Qed.

(** C8.  For a valid render call (opacities and weights in [0,1]) and
    any pixel, the transmittance starts at 1, never increases from one
    step of the front-to-back walk to the next, always lies in [0,1],
    and its last value is the final transmittance of the pixel. *)
Theorem transmittance_starts_at_one_and_decays (es : list Entry) :
  valid_gaussians gaussians -> valid_walk es ->
  head (transmittances channels gaussians threshold es) = Some 1 /\
  non_increasing (transmittances channels gaussians threshold es) /\
  Forall unit_interval (transmittances channels gaussians threshold es) /\
  last (transmittances channels gaussians threshold es)
    = Some (T (composite channels gaussians threshold es)).
Proof.
  intros V W. unfold transmittances, composite.
  assert (U : unit_interval (T (start channels))).
  { simpl. split; discriminate. }
  destruct (transmittances_from_bounds es (start channels) 0%nat V W U) as [F N].
  split; [apply transmittances_from_head|]. split; [exact N|].
  split; [exact F | apply transmittances_from_last].
Qed.

(** *** Zero image gradient *)










End CompositorFacts.

Section CompositorCalls.
Import Compositor Instance.
Local Open Scope Q_scope.

Example covered_pixel_transmittances :
  transmittances 3 two_gaussians one_over_255 covered_pixel = [1; 1 # 2; 1 # 4].
Proof. reflexivity. Qed.

Example covered_pixel_gradients :
  map Qred (d_opacity
    (render_backward 3 two_gaussians [covered_pixel]
       (render_forward 3 two_gaussians one_over_255 [covered_pixel])
       [[1; 1; 1]]))
  = [1 # 2; 1 # 2].
Proof. reflexivity. Qed.

Lemma transmittance_starts_at_one_and_decays_witness :
  valid_gaussians two_gaussians /\ valid_walk covered_pixel /\
  non_increasing [1; 1 # 2; 1 # 4] /\
  Forall unit_interval [1; 1 # 2; 1 # 4].
Proof.
  assert (V : valid_gaussians two_gaussians).
  { repeat constructor; vm_compute; discriminate. }
  assert (W : valid_walk covered_pixel).
  { repeat constructor; vm_compute; discriminate. }
  split; [exact V|]. split; [exact W|].
  destruct (transmittance_starts_at_one_and_decays 3 two_gaussians one_over_255
              covered_pixel V W) as (_ & N & F & _).
  split; [exact N | exact F].
Defined.


End CompositorCalls.

(* ===================================================================== *)
(** ** More about the validation loop                                    *)
(* ===================================================================== *)

Section ValidationFacts.
Context {scalar : Type} `{ElemOps scalar}.
Context (module_means : option handle).

#[local] Abbreviation State := (State scalar).
#[local] Abbreviation Tensor := (Tensor scalar).

Lemma leading_shape0 (t : Tensor) n : leading t = Some n -> shape0 t = Ok n.
Proof. unfold leading, shape0. destruct (shape t); simpl; congruence. Qed.

Lemma check_input_pass means3d name input (s : State) ti tm n :
  heap s !! input = Some ti -> heap s !! means3d = Some tm ->
  leading ti = Some n -> leading tm = Some n ->
  check_input module_means means3d (name, input) s = (Ok tt, s).
Proof.
  intros Li Lm Hi Hm. unfold check_input.
  run_with (deref_some _ _ _ Li).
  rewrite (leading_shape0 _ _ Hi). unfold lift at 1.
  assert (E1 : (fun s0 : State => (Ok n, s0)) s = (Ok n, s)) by reflexivity.
  run_with E1. run_with (deref_some _ _ _ Lm).
  rewrite (leading_shape0 _ _ Hm). unfold lift at 1.
  run_with E1. rewrite Z.eqb_refl. reflexivity.
Qed.

Lemma validate_inputs_pass m sc q c o (s : State) tm tsc tq tc to :
  heap s !! m = Some tm -> heap s !! sc = Some tsc -> heap s !! q = Some tq ->
  heap s !! c = Some tc -> heap s !! o = Some to ->
  same_batch tm tsc tq tc to ->
  validate_inputs module_means m sc q c o s = (Ok tt, s).
Proof.
  intros Lm Lsc Lq Lc Lo (n & Hm & Hsc & Hq & Hc & Ho).
  unfold validate_inputs, checked_inputs. simpl.
  run_with (check_input_pass m "means3d" m s tm tm n Lm Lm Hm Hm).
  run_with (check_input_pass m "scales" sc s tsc tm n Lsc Lm Hsc Hm).
  run_with (check_input_pass m "rotations.quat" q s tq tm n Lq Lm Hq Hm).
  run_with (check_input_pass m "colors" c s tc tm n Lc Lm Hc Hm).
  run_with (check_input_pass m "opacity" o s to tm n Lo Lm Ho Hm).
  reflexivity.
Qed.

(** The validation loop looks at leading dimensions and at nothing else:
    it passes exactly when the five tensors have one, and the same one.
    How many dimensions a tensor has, and its other sizes, play no part. *)
Theorem validate_inputs_accepts_iff m sc q c o (s : State) (tm tsc tq tc to : Tensor) :
  heap s !! m = Some tm -> heap s !! sc = Some tsc -> heap s !! q = Some tq ->
  heap s !! c = Some tc -> heap s !! o = Some to ->
  validate_inputs module_means m sc q c o s = (Ok tt, s) <->
  same_batch tm tsc tq tc to.
Proof.
  intros Lm Lsc Lq Lc Lo. split.
  - intros E.
    destruct (validate_inputs_ok_inv module_means _ _ _ _ _ _ _ _ _ _ _ _ _
                E Lm Lsc Lq Lc Lo) as (_ & n & Hn).
    exists n. exact Hn.
  - now apply validate_inputs_pass.
Qed.

End ValidationFacts.

Section UnboundName.
Context {scalar : Type} `{ElemOps scalar}.
Context (lib : CudaLib scalar) (current_cuda : nat).

#[local] Abbreviation State := (State scalar).
#[local] Abbreviation Tensor := (Tensor scalar).

Lemma check_input_unbound_means means3d name input (s : State) ti tm a n :
  heap s !! input = Some ti -> heap s !! means3d = Some tm ->
  leading ti = Some a -> leading tm = Some n -> a <> n ->
  check_input None means3d (name, input) s = (Raise (NameError "means"), s).
Proof.
  intros Li Lm Hi Hm Ne. unfold check_input.
  run_with (deref_some _ _ _ Li).
  rewrite (leading_shape0 _ _ Hi). unfold lift at 1.
  assert (E1 : forall k : Z, (fun s0 : State => (Ok k, s0)) s = (Ok k, s)) by reflexivity.
  run_with (E1 a). run_with (deref_some _ _ _ Lm).
  rewrite (leading_shape0 _ _ Hm). unfold lift at 1.
  run_with (E1 n).
  apply Z.eqb_neq in Ne. rewrite Ne. reflexivity.
Qed.

(** With the module imported (no global [means]), a batch-size mismatch
    among tensors that all have a leading dimension surfaces as
    [NameError: means], raised while the assertion message is built, and
    not as the [AssertionError] the message was written for. *)
Theorem forward_batch_mismatch_raises_name_error
    m sc gs q c o v p h w fx fy ch (s : State) (tm tsc tq tc to : Tensor)
    (n nsc nq nc no : Z) :
  heap s !! m = Some tm -> heap s !! sc = Some tsc -> heap s !! q = Some tq ->
  heap s !! c = Some tc -> heap s !! o = Some to ->
  leading tm = Some n -> leading tsc = Some nsc -> leading tq = Some nq ->
  leading tc = Some nc -> leading to = Some no ->
  nsc <> n \/ nq <> n \/ nc <> n \/ no <> n ->
  forward lib None current_cuda m sc gs q c o v p h w fx fy ch s
    = (Raise (NameError "means"), s).
Proof.
  intros Lm Lsc Lq Lc Lo Hm Hsc Hq Hc Ho Bad.
  unfold forward. apply bind_raise.
  unfold validate_inputs, checked_inputs. simpl.
  run_with (check_input_pass None m "means3d" m s tm tm n Lm Lm Hm Hm).
  destruct (decide (nsc = n)) as [->|Nsc].
  2: { apply bind_raise.
       exact (check_input_unbound_means m "scales" sc s tsc tm nsc n Lsc Lm Hsc Hm Nsc). }
  run_with (check_input_pass None m "scales" sc s tsc tm n Lsc Lm Hsc Hm).
  destruct (decide (nq = n)) as [->|Nq].
  2: { apply bind_raise.
       exact (check_input_unbound_means m "rotations.quat" q s tq tm nq n Lq Lm Hq Hm Nq). }
  run_with (check_input_pass None m "rotations.quat" q s tq tm n Lq Lm Hq Hm).
  destruct (decide (nc = n)) as [->|Nc].
  2: { apply bind_raise.
       exact (check_input_unbound_means m "colors" c s tc tm nc n Lc Lm Hc Hm Nc). }
  run_with (check_input_pass None m "colors" c s tc tm n Lc Lm Hc Hm).
  destruct (decide (no = n)) as [->|No].
  2: { apply bind_raise.
       exact (check_input_unbound_means m "opacity" o s to tm no n Lo Lm Ho Hm No). }
  exfalso. tauto.
Qed.

End UnboundName.

(* ===================================================================== *)
(** ** Reaching the library: placement of the arguments, totality        *)
(* ===================================================================== *)

Section ReachingTheLibrary.
Context {scalar : Type} `{ElemOps scalar}.
Context (lib : CudaLib scalar) (module_means : option handle) (current_cuda : nat).

#[local] Abbreviation State := (State scalar).
#[local] Abbreviation Tensor := (Tensor scalar).

Lemma contiguous_run r (s : State) t :
  heap s !! r = Some t ->
  exists r' s' t', contiguous r s = (Ok r', s') /\ grows s s' /\
    heap s' !! r' = Some t' /\ same_content t' t /\
    device t' = device t /\ is_contiguous t' = true.
Proof.
  intros L. unfold contiguous. run_with (deref_some _ _ _ L).
  destruct (is_contiguous t) eqn:C.
  - exists r, s, t. repeat split; auto. apply heap_extends_refl.
  - eexists _, _, _. split; [reflexivity|]. split; [apply (grows_alloc _ s)|].
    split; [apply alloc_lookup | repeat split].
Qed.

Lemma to_cuda_run r (s : State) t :
  heap s !! r = Some t ->
  exists r' s' t', to_cuda current_cuda r s = (Ok r', s') /\ grows s s' /\
    heap s' !! r' = Some t' /\ same_content t' t /\
    device t' = cuda current_cuda /\ is_contiguous t' = is_contiguous t.
Proof.
  intros L. unfold to_cuda. run_with (deref_some _ _ _ L).
  destruct (decide (device t = cuda current_cuda)) as [D|D].
  - exists r, s, t. repeat split; auto. apply heap_extends_refl.
  - eexists _, _, _. split; [reflexivity|]. split; [apply (grows_alloc _ s)|].
    split; [apply alloc_lookup | repeat split].
Qed.

(** [t.contiguous().cuda()] always succeeds and yields a contiguous
    tensor on the current CUDA device with the elements of [t]. *)
Lemma on_cuda_run r (s : State) t :
  heap s !! r = Some t ->
  exists t' s', on_cuda current_cuda r s = (Ok t', s') /\ grows s s' /\
    same_content t' t /\ placed current_cuda t'.
Proof.
  intros L. unfold on_cuda.
  destruct (contiguous_run r s t L) as (r1 & s1 & t1 & E1 & G1 & L1 & C1 & D1 & F1).
  destruct (to_cuda_run r1 s1 t1 L1) as (r2 & s2 & t2 & E2 & G2 & L2 & C2 & D2 & F2).
  run_with E1. run_with E2.
  exists t2, s2. split; [now apply deref_some|]. split; [eapply grows_trans; eauto|].
  split; [eapply same_content_trans; eauto|]. split; congruence.
Qed.

(** The thirteen arguments are always built, provided the three numbers
    convert to floats; each tensor among them is placed. *)
Lemma forward_arguments_run m sc gs q c o v p h w fx fy ch (s : State)
    tm tsc tq tc to tv tp (g f1 f2 : spec_float) :
  heap s !! m = Some tm -> heap s !! sc = Some tsc -> heap s !! q = Some tq ->
  heap s !! c = Some tc -> heap s !! o = Some to -> heap s !! v = Some tv ->
  heap s !! p = Some tp ->
  py_float gs = Ok g -> py_float fx = Ok f1 -> py_float fy = Ok f2 ->
  exists a s',
    forward_arguments current_cuda m sc gs q c o v p h w fx fy ch s = (Ok a, s') /\
    grows s s' /\ all_placed current_cuda a.
Proof.
  intros Lm Lsc Lq Lc Lo Lv Lp Eg Ef1 Ef2. unfold forward_arguments.
  destruct (on_cuda_run _ _ _ Lm) as (x1 & s1 & E1 & G1 & _ & P1). run_with E1.
  destruct (on_cuda_run _ _ _ (grows_lookup _ _ _ _ G1 Lsc))
    as (x2 & s2 & E2 & G2 & _ & P2). run_with E2.
  pose proof (grows_trans _ _ _ G1 G2) as G12.
  rewrite Eg. unfold lift at 1.
  assert (Eret : forall (x : spec_float) (s0 : State),
            (fun s1 : State => (Ok x, s1)) s0 = (Ok x, s0)) by reflexivity.
  run_with (Eret g s2).
  destruct (on_cuda_run _ _ _ (grows_lookup _ _ _ _ G12 Lq))
    as (x3 & s3 & E3 & G3 & _ & P3). run_with E3.
  pose proof (grows_trans _ _ _ G12 G3) as G13.
  destruct (on_cuda_run _ _ _ (grows_lookup _ _ _ _ G13 Lc))
    as (x4 & s4 & E4 & G4 & _ & P4). run_with E4.
  pose proof (grows_trans _ _ _ G13 G4) as G14.
  destruct (on_cuda_run _ _ _ (grows_lookup _ _ _ _ G14 Lo))
    as (x5 & s5 & E5 & G5 & _ & P5). run_with E5.
  pose proof (grows_trans _ _ _ G14 G5) as G15.
  destruct (on_cuda_run _ _ _ (grows_lookup _ _ _ _ G15 Lv))
    as (x6 & s6 & E6 & G6 & _ & P6). run_with E6.
  pose proof (grows_trans _ _ _ G15 G6) as G16.
  destruct (on_cuda_run _ _ _ (grows_lookup _ _ _ _ G16 Lp))
    as (x7 & s7 & E7 & G7 & _ & P7). run_with E7.
  pose proof (grows_trans _ _ _ G16 G7) as G17.
  rewrite Ef1. unfold lift at 1. run_with (Eret f1 s7).
  rewrite Ef2. unfold lift at 1. run_with (Eret f2 s7).
  eexists _, s7. split; [reflexivity|]. split; [exact G17|].
  unfold all_placed. simpl. repeat split; first [apply P1|apply P2|apply P3|apply P4|apply P5|apply P6|apply P7].
Qed.

(** Whatever [forward_arguments] returns is placed. *)
Lemma forward_arguments_placed m sc gs q c o v p h w fx fy ch (s s' : State) a
    tm tsc tq tc to tv tp :
  forward_arguments current_cuda m sc gs q c o v p h w fx fy ch s = (Ok a, s') ->
  heap s !! m = Some tm -> heap s !! sc = Some tsc -> heap s !! q = Some tq ->
  heap s !! c = Some tc -> heap s !! o = Some to -> heap s !! v = Some tv ->
  heap s !! p = Some tp ->
  all_placed current_cuda a.
Proof.
  intros E Lm Lsc Lq Lc Lo Lv Lp.
  destruct (forward_arguments_ok_inv current_cuda _ _ _ _ _ _ _ _ _ _ _ _ _ _ _ _
              _ _ _ _ _ _ _ E Lm Lsc Lq Lc Lo Lv Lp)
    as (_ & _ & _ & _ & _ & _ & _ & _ & Eg & Ef1 & Ef2 & _).
  destruct (forward_arguments_run m sc gs q c o v p h w fx fy ch s _ _ _ _ _ _ _
              _ _ _ Lm Lsc Lq Lc Lo Lv Lp Eg Ef1 Ef2) as (a' & s1 & E' & _ & P).
  rewrite E in E'. inversion E'; subst. exact P.
Qed.

End ReachingTheLibrary.

Section PaddingSucceeds.
Context {scalar : Type} `{ElemOps scalar}.

#[local] Abbreviation State := (State scalar).
#[local] Abbreviation Tensor := (Tensor scalar).

(** With the matrix and the tensor that lends its device both on the
    CPU, the padding goes through. *)
Lemma pad_matrix_run m src (s : State) (tm tsrc : Tensor) :
  heap s !! m = Some tm -> heap s !! src = Some tsrc ->
  shape tm = [3; 4] -> device tsrc = cpu -> device tm = cpu ->
  exists h s' t', pad_matrix m src s = (Ok h, s') /\ grows s s' /\
    heap s' !! h = Some t' /\ padded_from tm t' /\ device t' = cpu.
Proof.
  intros L Lsrc S Dsrc Dm. unfold pad_matrix.
  run_with (deref_some _ _ _ Lsrc).
  unfold new_row. rewrite bind_assoc. unfold legacy_Tensor. rewrite Dsrc.
  simpl device_is_cpu. cbv iota. unfold lift at 1.
  set (row0 := {| shape := [Z.of_nat (length [0; 0; 0; 1])]; dtype := float32;
                  device := cpu; is_contiguous := true;
                  data := map of_pyint [0; 0; 0; 1] |} : Tensor).
  assert (E0 : (fun s0 : State => (Ok row0, s0)) s = (Ok row0, s)) by reflexivity.
  run_with E0. rewrite bind_assoc.
  set (s1 := snd (alloc row0 s)).
  assert (E1 : alloc row0 s = (Ok (length (heap s)), s1)) by reflexivity.
  run_with E1. rewrite bind_assoc.
  assert (L1 : heap s1 !! length (heap s) = Some row0) by apply alloc_lookup.
  run_with (deref_some _ _ _ L1).
  set (s2 := snd (alloc (unsqueeze0 row0) s1)).
  assert (E2 : alloc (unsqueeze0 row0) s1 = (Ok (length (heap s1)), s2))
    by reflexivity.
  run_with E2.
  assert (G2 : grows s s2).
  { eapply grows_trans; [apply (grows_alloc row0 s) | apply (grows_alloc _ s1)]. }
  unfold cat0.
  run_with (deref_some _ _ _ (grows_lookup _ _ _ _ G2 L)).
  assert (L2 : heap s2 !! length (heap s1) = Some (unsqueeze0 row0))
    by apply alloc_lookup.
  run_with (deref_some _ _ _ L2).
  unfold torch_cat0. rewrite S. simpl shape. cbv iota.
  change (Z.of_nat 4) with 4.
  rewrite (bool_decide_eq_true_2 ([4] = [4])) by reflexivity.
  rewrite Dm. simpl device.
  rewrite (bool_decide_eq_true_2 (cpu = cpu)) by reflexivity.
  simpl negb. cbv iota. unfold lift at 1.
  match goal with
  | |- context [bind (fun s0 : State => (Ok ?t, s0)) _ s2] =>
      set (t' := t);
      assert (E3 : (fun s0 : State => (Ok t', s0)) s2 = (Ok t', s2)) by reflexivity
  end.
  run_with E3.
  exists (length (heap s2)), (snd (alloc t' s2)), t'.
  split; [reflexivity|]. split.
  { eapply grows_trans; [exact G2 | apply (grows_alloc t' s2)]. }
  split; [apply alloc_lookup|]. split; [|reflexivity].
  unfold padded_from. subst t'. simpl. repeat split.
Qed.

Lemma maybe_pad_run m src (s : State) (tm tsrc : Tensor) :
  heap s !! m = Some tm -> heap s !! src = Some tsrc ->
  shape tm = [4; 4] \/ (shape tm = [3; 4] /\ device tm = cpu /\ device tsrc = cpu) ->
  exists h s' t',
    (if bool_decide (shape tm = [3; 4]) then pad_matrix m src else ret m) s
      = (Ok h, s') /\
    grows s s' /\ heap s' !! h = Some t' /\ shape t' = [4; 4] /\
    device t' = device tm.
Proof.
  intros L Lsrc [S4|(S3 & Dm & Dsrc)].
  - rewrite S4. rewrite bool_decide_eq_false_2 by discriminate.
    exists m, s, tm. split; [reflexivity|]. split; [apply grows_refl|]. auto.
  - rewrite bool_decide_eq_true_2 by exact S3.
    destruct (pad_matrix_run m src s tm tsrc L Lsrc S3 Dsrc Dm)
      as (h & s' & t' & E & G & L' & (S & _) & D).
    exists h, s', t'. repeat split; try assumption; try apply G. congruence.
Qed.

(** Camera matrices that are ready get through [prepare_matrices]. *)
Lemma prepare_matrices_run v p (s : State) (tv tp : Tensor) :
  heap s !! v = Some tv -> heap s !! p = Some tp ->
  camera_ready tv tp ->
  exists v' p' s', prepare_matrices v p s = (Ok (v', p'), s').
Proof.
  intros Lv Lp [Rp Rv]. unfold prepare_matrices.
  run_with (deref_some _ _ _ Lp).
  assert (Rp' : shape tp = [4; 4] \/
                (shape tp = [3; 4] /\ device tp = cpu /\ device tp = cpu)) by tauto.
  destruct (maybe_pad_run p p s tp tp Lp Lp Rp')
    as (p1 & s1 & tp1 & Ep & G1 & Lp1 & Sp1 & Dp1).
  run_with Ep.
  run_with (deref_some _ _ _ (grows_lookup _ _ _ _ G1 Lv)).
  assert (Rv' : shape tv = [4; 4] \/
                (shape tv = [3; 4] /\ device tv = cpu /\ device tp1 = cpu)).
  { destruct Rv as [S4|(S3 & Dv & Dp)]; [left; exact S4 | right].
    repeat split; congruence. }
  destruct (maybe_pad_run v p1 s1 tv tp1 (grows_lookup _ _ _ _ G1 Lv) Lp1 Rv')
    as (v1 & s2 & tv1 & Ev & G2 & Lv1 & Sv1 & Dv1).
  run_with Ev.
  run_with (deref_some _ _ _ (grows_lookup _ _ _ _ G2 Lp1)).
  rewrite Sp1. rewrite bool_decide_eq_true_2 by reflexivity.
  unfold assert_ at 1.
  assert (Eu : ret tt s2 = (Ok tt, s2)) by reflexivity.
  run_with Eu.
  run_with (deref_some _ _ _ Lv1).
  rewrite Sv1. rewrite bool_decide_eq_true_2 by reflexivity.
  unfold assert_ at 1. run_with Eu.
  eexists _, _, _. reflexivity.
Qed.

Lemma prepare_matrices_ok_ready v p (s s' : State) vp (tv tp : Tensor) :
  prepare_matrices v p s = (Ok vp, s') ->
  heap s !! v = Some tv -> heap s !! p = Some tp ->
  camera_ready tv tp.
Proof.
  intros E Lv Lp. destruct vp as [v' p'].
  destruct (prepare_matrices_ok_inv _ _ _ _ _ _ _ _ E Lv Lp)
    as (_ & tv' & tp' & _ & _ & Rv & Rp).
  assert (Sv : shape tv = [3; 4] \/ shape tv = [4; 4])
    by (destruct Rv as [[S _]|[S _]]; auto).
  assert (Sp : shape tp = [3; 4] \/ shape tp = [4; 4])
    by (destruct Rp as [[S _]|[S _]]; auto).
  unfold prepare_matrices in E.
  run_with_in (deref_some _ _ _ Lp) E.
  apply bind_ok_inv in E as (p1 & s1 & Ep1 & E).
  assert (Hp : (shape tp = [4; 4] \/ (shape tp = [3; 4] /\ device tp = cpu)) /\
               exists tp1, heap s1 !! p1 = Some tp1 /\ device tp1 = device tp /\
                           grows s s1).
  { destruct Sp as [S3|S4].
    - rewrite bool_decide_eq_true_2 in Ep1 by exact S3.
      destruct (pad_matrix_ok_devices _ _ _ _ _ _ _ Ep1 Lp Lp S3) as [D _].
      split; [right; auto|].
      destruct (pad_matrix_run p p s tp tp Lp Lp S3 D D)
        as (h & s'' & t' & E' & G & L' & _ & D').
      rewrite E' in Ep1. inversion Ep1; subst h s''.
      exists t'. repeat split; try assumption; try apply G. congruence.
    - rewrite S4 in Ep1. rewrite bool_decide_eq_false_2 in Ep1 by discriminate.
      inversion Ep1; subst p1 s1. split; [left; exact S4|].
      exists tp. repeat split; try assumption. apply heap_extends_refl. }
  destruct Hp as (Rp' & tp1 & Lp1 & Dp1 & G1).
  split; [exact Rp'|].
  run_with_in (deref_some _ _ _ (grows_lookup _ _ _ _ G1 Lv)) E.
  apply bind_ok_inv in E as (v1 & s2 & Ev1 & _).
  destruct Sv as [S3|S4]; [right | left; exact S4].
  rewrite bool_decide_eq_true_2 in Ev1 by exact S3.
  destruct (pad_matrix_ok_devices _ _ _ _ _ _ _ Ev1
              (grows_lookup _ _ _ _ G1 Lv) Lp1 S3) as [D1 Dv].
  repeat split; congruence.
Qed.

(** The camera check in full: [prepare_matrices] lets through exactly
    the 4x4 matrices, on any device, and the 3x4 matrices that sit on the
    CPU together with the projection matrix. *)
Theorem prepare_matrices_accepts_iff v p (s : State) (tv tp : Tensor) :
  heap s !! v = Some tv -> heap s !! p = Some tp ->
  (exists vp s', prepare_matrices v p s = (Ok vp, s')) <-> camera_ready tv tp.
Proof.
  intros Lv Lp. split.
  - intros (vp & s' & E). eapply prepare_matrices_ok_ready; eauto.
  - intros R. destruct (prepare_matrices_run v p s tv tp Lv Lp R)
      as (v' & p' & s' & E).
    exists (v', p'), s'. exact E.
Qed.

End PaddingSucceeds.

(* ===================================================================== *)
(** ** [forward] from end to end                                         *)
(* ===================================================================== *)

Section ForwardEndToEnd.
Context {scalar : Type} `{ElemOps scalar}.
Context (lib : CudaLib scalar) (module_means : option handle) (current_cuda : nat).

#[local] Abbreviation State := (State scalar).
#[local] Abbreviation Tensor := (Tensor scalar).

(** A call that passes the wrapper's own checks enters the library. *)
Lemma forward_reaches_library m sc gs q c o v p h w fx fy ch (s : State)
    (tm tsc tq tc to tv tp : Tensor) (g f1 f2 : spec_float) :
  heap s !! m = Some tm -> heap s !! sc = Some tsc -> heap s !! q = Some tq ->
  heap s !! c = Some tc -> heap s !! o = Some to -> heap s !! v = Some tv ->
  heap s !! p = Some tp ->
  same_batch tm tsc tq tc to -> camera_ready tv tp ->
  py_float gs = Ok g -> py_float fx = Ok f1 -> py_float fy = Ok f2 ->
  exists a,
    calls (snd (forward lib module_means current_cuda m sc gs q c o v p h w
                  fx fy ch s))
      = calls s ++ [FwdCall a] /\
    all_placed current_cuda a.
Proof.
  intros Lm Lsc Lq Lc Lo Lv Lp B R Eg Ef1 Ef2. unfold forward.
  run_with (validate_inputs_pass module_means _ _ _ _ _ _ _ _ _ _ _
              Lm Lsc Lq Lc Lo B).
  destruct (prepare_matrices_run v p s tv tp Lv Lp R) as (v' & p' & s1 & Ep).
  run_with Ep. cbv zeta. simpl fst. simpl snd.
  destruct (prepare_matrices_ok_inv _ _ _ _ _ _ _ _ Ep Lv Lp)
    as (G1 & tv' & tp' & Lv' & Lp' & _).
  destruct (normalize_colors_spec _ _ _ (grows_lookup _ _ _ _ G1 Lc))
    as (c' & s2 & tc' & Ec & G2 & Lc' & _).
  run_with Ec.
  pose proof (grows_trans _ _ _ G1 G2) as G12.
  destruct (forward_arguments_run current_cuda m sc gs q c' o v' p' h w fx fy ch s2
              _ _ _ _ _ _ _ g f1 f2
              (grows_lookup _ _ _ _ G12 Lm) (grows_lookup _ _ _ _ G12 Lsc)
              (grows_lookup _ _ _ _ G12 Lq) Lc' (grows_lookup _ _ _ _ G12 Lo)
              (grows_lookup _ _ _ _ G2 Lv') (grows_lookup _ _ _ _ G2 Lp')
              Eg Ef1 Ef2)
    as (a & s3 & Ea & G3 & P).
  run_with Ea.
  destruct (grows_trans _ _ _ G12 G3) as (_ & _ & Calls).
  exists a. split; [|exact P].
  unfold call_rasterize_forward, bind, log_call, lift, alloc, set_ctx, ret.
  simpl. destruct (rasterize_forward lib a); simpl; now rewrite Calls.
Qed.

(** A call that passes the wrapper's own checks enters the library once
    and ends as the library does: when the library returns, [forward]
    returns its [num_rendered] with handles to its image and its radii;
    when the library raises, [forward] raises the same exception and
    [ctx] stays as it was. *)
Theorem forward_returns_library_outputs m sc gs q c o v p h w fx fy ch (s : State)
    (tm tsc tq tc to tv tp : Tensor) (g f1 f2 : spec_float) :
  heap s !! m = Some tm -> heap s !! sc = Some tsc -> heap s !! q = Some tq ->
  heap s !! c = Some tc -> heap s !! o = Some to -> heap s !! v = Some tv ->
  heap s !! p = Some tp ->
  same_batch tm tsc tq tc to -> camera_ready tv tp ->
  py_float gs = Ok g -> py_float fx = Ok f1 -> py_float fy = Ok f2 ->
  exists a s',
    snd (forward lib module_means current_cuda m sc gs q c o v p h w fx fy ch s)
      = s' /\
    calls s' = calls s ++ [FwdCall a] /\
    match rasterize_forward lib a with
    | Ok out =>
        exists img radii,
          fst (forward lib module_means current_cuda m sc gs q c o v p h w
                 fx fy ch s)
            = Ok (o_num_rendered out, img, radii) /\
          heap s' !! img = Some (o_out_img out) /\
          heap s' !! radii = Some (o_out_radii out)
    | Raise e =>
        fst (forward lib module_means current_cuda m sc gs q c o v p h w
               fx fy ch s) = Raise e /\
        ctx s' = ctx s
    end.
Proof.
  intros Lm Lsc Lq Lc Lo Lv Lp B R Eg Ef1 Ef2.
  destruct (forward_reaches_library m sc gs q c o v p h w fx fy ch s
              _ _ _ _ _ _ _ g f1 f2 Lm Lsc Lq Lc Lo Lv Lp B R Eg Ef1 Ef2)
    as (a0 & Calls0 & _).
  destruct (forward lib module_means current_cuda m sc gs q c o v p h w fx fy ch s)
    as [r s'] eqn:E.
  simpl in Calls0. simpl fst. simpl snd.
  destruct (forward_run_inv lib module_means current_cuda
              _ _ _ _ _ _ _ _ _ _ _ _ _ _ _ _ _ _ _ _ _ _ _
              E Lm Lsc Lq Lc Lo Lv Lp)
    as [(_ & Calls & _)|(a & Calls & _ & Out)].
  { exfalso. rewrite Calls in Calls0.
    apply (f_equal length) in Calls0. rewrite length_app in Calls0.
    simpl in Calls0. lia. }
  exists a, s'. split; [reflexivity|]. split; [exact Calls|].
  destruct r as [[[num img] radii]|e].
  - destruct Out as (out & Ecore & Enum & Limg & Lradii). simpl in *. subst num.
    rewrite Ecore. exists img, radii. auto.
  - destruct Out as [Ecore Ctx]. rewrite Ecore. auto.
Qed.

(** [forward] writes [ctx] only after the library has returned: a
    call that raises, wherever it raises, leaves [ctx] as it found it,
    and an exception of the library is the exception of [forward]. *)
Theorem forward_failure_leaves_ctx m sc gs q c o v p h w fx fy ch (s s' : State) e
    (tm tsc tq tc to tv tp : Tensor) :
  heap s !! m = Some tm -> heap s !! sc = Some tsc -> heap s !! q = Some tq ->
  heap s !! c = Some tc -> heap s !! o = Some to -> heap s !! v = Some tv ->
  heap s !! p = Some tp ->
  forward lib module_means current_cuda m sc gs q c o v p h w fx fy ch s
    = (Raise e, s') ->
  ctx s' = ctx s /\
  (calls s' = calls s \/
   exists a, calls s' = calls s ++ [FwdCall a] /\ rasterize_forward lib a = Raise e).
Proof.
  intros Lm Lsc Lq Lc Lo Lv Lp E.
  destruct (forward_run_inv lib module_means current_cuda
              _ _ _ _ _ _ _ _ _ _ _ _ _ _ _ _ _ _ _ _ _ _ _
              E Lm Lsc Lq Lc Lo Lv Lp)
    as [(_ & Calls & Ctx)|(a & Calls & _ & Ecore & Ctx)].
  - auto.
  - split; [exact Ctx|]. right. exists a. auto.
Qed.

(** Whenever the library is entered, each of the seven tensors it
    is given is contiguous and on the current CUDA device, wherever the
    caller's tensors were. *)
Theorem forward_hands_over_placed_tensors
    m sc gs q c o v p h w fx fy ch (s s' : State) r a
    (tm tsc tq tc to tv tp : Tensor) :
  heap s !! m = Some tm -> heap s !! sc = Some tsc -> heap s !! q = Some tq ->
  heap s !! c = Some tc -> heap s !! o = Some to -> heap s !! v = Some tv ->
  heap s !! p = Some tp ->
  forward lib module_means current_cuda m sc gs q c o v p h w fx fy ch s
    = (r, s') ->
  calls s' = calls s ++ [FwdCall a] ->
  all_placed current_cuda a.
Proof.
  intros Lm Lsc Lq Lc Lo Lv Lp E Calls.
  assert (Ev : validate_inputs module_means m sc q c o s = (Ok tt, s)).
  { destruct (validate_inputs module_means m sc q c o s) as [[[]|e] s0] eqn:Ev.
    - f_equal. symmetry.
      eapply respects_run; [apply validate_inputs_silent | exact Ev].
    - exfalso. unfold forward in E. rewrite (bind_raise _ _ _ _ _ Ev) in E.
      inversion E; subst r s'.
      assert (s0 = s) as ->
        by (symmetry; eapply respects_run; [apply validate_inputs_silent | exact Ev]).
      apply (f_equal length) in Calls. rewrite length_app in Calls.
      simpl in Calls. lia. }
  unfold forward in E. run_with_in Ev E.
  destruct (prepare_matrices v p s) as [[[v' p']|e] s1] eqn:Ep.
  2: { exfalso. rewrite (bind_raise _ _ _ _ _ Ep) in E. inversion E; subst r s'.
       destruct (respects_run grows _ _ _ _ (prepare_matrices_quiet v p) Ep)
         as (_ & _ & L).
       rewrite L in Calls. apply (f_equal length) in Calls.
       rewrite length_app in Calls. simpl in Calls. lia. }
  run_with_in Ep E. cbv zeta in E. simpl fst in E. simpl snd in E.
  destruct (prepare_matrices_ok_inv _ _ _ _ _ _ _ _ Ep Lv Lp)
    as (G1 & tv' & tp' & Lv' & Lp' & _).
  destruct (normalize_colors_spec _ _ _ (grows_lookup _ _ _ _ G1 Lc))
    as (c' & s2 & tc' & Ec & G2 & Lc' & _).
  run_with_in Ec E.
  pose proof (grows_trans _ _ _ G1 G2) as G12.
  destruct (forward_arguments current_cuda m sc gs q c' o v' p' h w fx fy ch s2)
    as [[a'|e] s3] eqn:Ea.
  2: { exfalso. rewrite (bind_raise _ _ _ _ _ Ea) in E. inversion E; subst r s'.
       pose proof (respects_run grows _ _ _ _
                     (forward_arguments_quiet current_cuda _ _ _ _ _ _ _ _ _ _ _ _ _)
                     Ea) as G3.
       destruct (grows_trans _ _ _ G12 G3) as (_ & _ & L).
       rewrite L in Calls. apply (f_equal length) in Calls.
       rewrite length_app in Calls. simpl in Calls. lia. }
  run_with_in Ea E.
  pose proof (forward_arguments_placed current_cuda _ _ _ _ _ _ _ _ _ _ _ _ _ _ _ _
                _ _ _ _ _ _ _ Ea
                (grows_lookup _ _ _ _ G12 Lm) (grows_lookup _ _ _ _ G12 Lsc)
                (grows_lookup _ _ _ _ G12 Lq) Lc' (grows_lookup _ _ _ _ G12 Lo)
                (grows_lookup _ _ _ _ G2 Lv') (grows_lookup _ _ _ _ G2 Lp')) as P.
  pose proof (respects_run grows _ _ _ _
                (forward_arguments_quiet current_cuda _ _ _ _ _ _ _ _ _ _ _ _ _)
                Ea) as G3.
  destruct (grows_trans _ _ _ G12 G3) as (_ & _ & L).
  assert (Ca : calls s' = calls s ++ [FwdCall a']).
  { unfold call_rasterize_forward, bind, log_call, lift, alloc, set_ctx, ret in E.
    simpl in E.
    destruct (rasterize_forward lib a'); simpl in E; inversion E; subst; simpl;
      now rewrite L. }
  rewrite Ca in Calls. apply app_inv_head in Calls. inversion Calls; subst a'.
  exact P.
Qed.

(** Whenever the library is entered, the view matrix and the
    projection matrix it is given are 4x4. *)
Theorem forward_hands_over_square_matrices
    m sc gs q c o v p h w fx fy ch (s s' : State) r a
    (tm tsc tq tc to tv tp : Tensor) :
  heap s !! m = Some tm -> heap s !! sc = Some tsc -> heap s !! q = Some tq ->
  heap s !! c = Some tc -> heap s !! o = Some to -> heap s !! v = Some tv ->
  heap s !! p = Some tp ->
  forward lib module_means current_cuda m sc gs q c o v p h w fx fy ch s
    = (r, s') ->
  calls s' = calls s ++ [FwdCall a] ->
  shape (a_view_matrix a) = [4; 4] /\ shape (a_proj_matrix a) = [4; 4].
Proof.
  intros Lm Lsc Lq Lc Lo Lv Lp E Calls.
  destruct (forward_run_inv lib module_means current_cuda
              _ _ _ _ _ _ _ _ _ _ _ _ _ _ _ _ _ _ _ _ _ _ _
              E Lm Lsc Lq Lc Lo Lv Lp)
    as [(_ & Calls' & _)
       |(a' & Calls' & (tc' & tv' & tp' & _ & _ & Rv & (Sv & _) & Rp & (Sp & _) & _) & _)].
  { exfalso. rewrite Calls' in Calls. apply (f_equal length) in Calls.
    rewrite length_app in Calls. simpl in Calls. lia. }
  rewrite Calls' in Calls. apply app_inv_head in Calls. inversion Calls; subst a'.
  assert (Sq : forall t t' : Tensor, matrix_prepared t t' -> shape t' = [4; 4]).
  { intros t t' [[_ (S4 & _)]|[S4 ->]]; assumption. }
  split; [rewrite Sv | rewrite Sp]; eapply Sq; eassumption.
Qed.

(** The blocks a call has been through when it has entered the library. *)
Lemma forward_entered_inv m sc gs q c o v p h w fx fy ch (s s' : State) r a
    (tm tsc tq tc to tv tp : Tensor) :
  heap s !! m = Some tm -> heap s !! sc = Some tsc -> heap s !! q = Some tq ->
  heap s !! c = Some tc -> heap s !! o = Some to -> heap s !! v = Some tv ->
  heap s !! p = Some tp ->
  forward lib module_means current_cuda m sc gs q c o v p h w fx fy ch s
    = (r, s') ->
  calls s' = calls s ++ [FwdCall a] ->
  validate_inputs module_means m sc q c o s = (Ok tt, s) /\
  (exists vp s1, prepare_matrices v p s = (Ok vp, s1)) /\
  py_float gs = Ok (a_glob_scale a) /\ py_float fx = Ok (a_fx a) /\
  py_float fy = Ok (a_fy a).
Proof.
  intros Lm Lsc Lq Lc Lo Lv Lp E Calls.
  assert (Ev : validate_inputs module_means m sc q c o s = (Ok tt, s)).
  { destruct (validate_inputs module_means m sc q c o s) as [[[]|e] s0] eqn:Ev.
    - f_equal. symmetry.
      eapply respects_run; [apply validate_inputs_silent | exact Ev].
    - exfalso. unfold forward in E. rewrite (bind_raise _ _ _ _ _ Ev) in E.
      inversion E; subst r s'.
      assert (s0 = s) as ->
        by (symmetry; eapply respects_run; [apply validate_inputs_silent | exact Ev]).
      apply (f_equal length) in Calls. rewrite length_app in Calls.
      simpl in Calls. lia. }
  split; [exact Ev|].
  unfold forward in E. run_with_in Ev E.
  destruct (prepare_matrices v p s) as [[[v' p']|e] s1] eqn:Ep.
  2: { exfalso. rewrite (bind_raise _ _ _ _ _ Ep) in E. inversion E; subst r s'.
       destruct (respects_run grows _ _ _ _ (prepare_matrices_quiet v p) Ep)
         as (_ & _ & L).
       rewrite L in Calls. apply (f_equal length) in Calls.
       rewrite length_app in Calls. simpl in Calls. lia. }
  split; [eauto|].
  run_with_in Ep E. cbv zeta in E. simpl fst in E. simpl snd in E.
  destruct (prepare_matrices_ok_inv _ _ _ _ _ _ _ _ Ep Lv Lp)
    as (G1 & tv' & tp' & Lv' & Lp' & _).
  destruct (normalize_colors_spec _ _ _ (grows_lookup _ _ _ _ G1 Lc))
    as (c' & s2 & tc' & Ec & G2 & Lc' & _).
  run_with_in Ec E.
  pose proof (grows_trans _ _ _ G1 G2) as G12.
  destruct (forward_arguments current_cuda m sc gs q c' o v' p' h w fx fy ch s2)
    as [[a'|e] s3] eqn:Ea.
  2: { exfalso. rewrite (bind_raise _ _ _ _ _ Ea) in E. inversion E; subst r s'.
       pose proof (respects_run grows _ _ _ _
                     (forward_arguments_quiet current_cuda _ _ _ _ _ _ _ _ _ _ _ _ _)
                     Ea) as G3.
       destruct (grows_trans _ _ _ G12 G3) as (_ & _ & L).
       rewrite L in Calls. apply (f_equal length) in Calls.
       rewrite length_app in Calls. simpl in Calls. lia. }
  run_with_in Ea E.
  destruct (forward_arguments_ok_inv current_cuda _ _ _ _ _ _ _ _ _ _ _ _ _ _ _ _
              _ _ _ _ _ _ _ Ea
              (grows_lookup _ _ _ _ G12 Lm) (grows_lookup _ _ _ _ G12 Lsc)
              (grows_lookup _ _ _ _ G12 Lq) Lc' (grows_lookup _ _ _ _ G12 Lo)
              (grows_lookup _ _ _ _ G2 Lv') (grows_lookup _ _ _ _ G2 Lp'))
    as (G3 & _ & _ & _ & _ & _ & _ & _ & Eg & Ef1 & Ef2 & _).
  destruct (grows_trans _ _ _ G12 G3) as (_ & _ & L).
  assert (Ca : calls s' = calls s ++ [FwdCall a']).
  { unfold call_rasterize_forward, bind, log_call, lift, alloc, set_ctx, ret in E.
    simpl in E.
    destruct (rasterize_forward lib a'); simpl in E; inversion E; subst; simpl;
      now rewrite L. }
  rewrite Ca in Calls. apply app_inv_head in Calls. inversion Calls; subst a'.
  auto.
Qed.

(** When [forward] enters the native library, in full: exactly when the
    five per-Gaussian tensors share a leading dimension, the camera
    matrices are ready, and [glob_scale], [fx] and [fy] convert to
    floats.  Nothing else about the arguments is looked at. *)
Theorem forward_enters_library_iff m sc gs q c o v p h w fx fy ch (s : State)
    (tm tsc tq tc to tv tp : Tensor) :
  heap s !! m = Some tm -> heap s !! sc = Some tsc -> heap s !! q = Some tq ->
  heap s !! c = Some tc -> heap s !! o = Some to -> heap s !! v = Some tv ->
  heap s !! p = Some tp ->
  (exists a,
     calls (snd (forward lib module_means current_cuda m sc gs q c o v p h w
                   fx fy ch s))
       = calls s ++ [FwdCall a]) <->
  (same_batch tm tsc tq tc to /\ camera_ready tv tp /\
   is_ok (py_float gs) = true /\ is_ok (py_float fx) = true /\
   is_ok (py_float fy) = true).
Proof.
  intros Lm Lsc Lq Lc Lo Lv Lp. split.
  - intros (a & Calls).
    destruct (forward lib module_means current_cuda m sc gs q c o v p h w fx fy ch s)
      as [r s'] eqn:E.
    simpl in Calls.
    destruct (forward_entered_inv _ _ _ _ _ _ _ _ _ _ _ _ _ _ _ _ _ _ _ _ _ _ _ _
                Lm Lsc Lq Lc Lo Lv Lp E Calls)
      as (Ev & (vp & s1 & Ep) & Eg & Ef1 & Ef2).
    split.
    { destruct (validate_inputs_ok_inv module_means _ _ _ _ _ _ _ _ _ _ _ _ _
                  Ev Lm Lsc Lq Lc Lo) as (_ & n & Hn).
      exists n. exact Hn. }
    split; [eapply prepare_matrices_ok_ready; eauto|].
    rewrite Eg, Ef1, Ef2. auto.
  - intros (B & R & Ig & If1 & If2).
    destruct (py_float gs) as [g|] eqn:Eg; [|discriminate].
    destruct (py_float fx) as [f1|] eqn:Ef1; [|discriminate].
    destruct (py_float fy) as [f2|] eqn:Ef2; [|discriminate].
    destruct (forward_reaches_library m sc gs q c o v p h w fx fy ch s
                _ _ _ _ _ _ _ g f1 f2 Lm Lsc Lq Lc Lo Lv Lp B R Eg Ef1 Ef2)
      as (a & Calls & _).
    exists a. exact Calls.
Qed.

End ForwardEndToEnd.

(* ===================================================================== *)
(** ** What [forward] saves and what [backward] makes of it              *)
(* ===================================================================== *)

Section SaveForBackward.
Context {scalar : Type} `{ElemOps scalar}.
Context (lib : CudaLib scalar) (module_means : option handle) (current_cuda : nat).

#[local] Abbreviation State := (State scalar).
#[local] Abbreviation Tensor := (Tensor scalar).

(** The state after a returning [forward], in full. *)
Lemma forward_ok_state m sc gs q c o v p h w fx fy ch (s s' : State) res
    (tm tsc tq tc to tv tp : Tensor) :
  forward lib module_means current_cuda m sc gs q c o v p h w fx fy ch s
    = (Ok res, s') ->
  heap s !! m = Some tm -> heap s !! sc = Some tsc -> heap s !! q = Some tq ->
  heap s !! c = Some tc -> heap s !! o = Some to -> heap s !! v = Some tv ->
  heap s !! p = Some tp ->
  exists a out c' v' p' tc' tv' tp' s3,
    grows s s3 /\
    heap s3 !! c' = Some tc' /\ heap s3 !! v' = Some tv' /\
    heap s3 !! p' = Some tp' /\
    colors_prepared tc tc' /\ matrix_prepared tv tv' /\ matrix_prepared tp tp' /\
    (dtype tc <> uint8 -> c' = c) /\
    (shape tv = [4; 4] -> v' = v) /\ (shape tp = [4; 4] -> p' = p) /\
    same_content (a_colors a) tc' /\
    rasterize_forward lib a = Ok out /\
    res = (o_num_rendered out, length (heap s3), (length (heap s3) + 1)%nat) /\
    s' = after_library s3 a out m sc gs q c' o v' p' h w fx fy ch.
Proof.
  intros E Lm Lsc Lq Lc Lo Lv Lp. unfold forward in E.
  apply bind_ok_inv in E as (u & s0 & Ev & E).
  destruct (validate_inputs_ok_inv module_means _ _ _ _ _ _ _ _ _ _ _ _ _
              Ev Lm Lsc Lq Lc Lo) as (-> & _).
  apply bind_ok_inv in E as ([v' p'] & s1 & Ep & E). cbv zeta in E.
  simpl fst in E. simpl snd in E.
  destruct (prepare_matrices_ok_inv _ _ _ _ _ _ _ _ Ep Lv Lp)
    as (G1 & tv' & tp' & Lv' & Lp' & Rv & Rp).
  assert (Alias : (shape tv = [4; 4] -> v' = v) /\ (shape tp = [4; 4] -> p' = p)).
  { unfold prepare_matrices in Ep.
    run_with_in (deref_some _ _ _ Lp) Ep.
    apply bind_ok_inv in Ep as (p1 & t1 & Ep1 & Ep).
    destruct (maybe_pad_ok_inv _ _ _ _ _ _ Ep1 Lp) as (Gp & _).
    run_with_in (deref_some _ _ _ (grows_lookup _ _ _ _ Gp Lv)) Ep.
    apply bind_ok_inv in Ep as (v1 & t2 & Ev1 & Ep).
    apply bind_ok_inv in Ep as (x1 & t3 & _ & Ep).
    apply bind_ok_inv in Ep as (u1 & t4 & _ & Ep).
    apply bind_ok_inv in Ep as (x2 & t5 & _ & Ep).
    apply bind_ok_inv in Ep as (u2 & t6 & _ & Ep).
    inversion Ep; subst v1 p1. split; intros S4.
    - rewrite S4 in Ev1. rewrite bool_decide_eq_false_2 in Ev1 by discriminate.
      now inversion Ev1.
    - rewrite S4 in Ep1. rewrite bool_decide_eq_false_2 in Ep1 by discriminate.
      now inversion Ep1. }
  destruct (normalize_colors_spec _ _ _ (grows_lookup _ _ _ _ G1 Lc))
    as (c' & s2 & tc' & Ec & G2 & Lc' & Rc).
  assert (AliasC : dtype tc <> uint8 -> c' = c).
  { intros N. unfold normalize_colors in Ec.
    run_with_in (deref_some _ _ _ (grows_lookup _ _ _ _ G1 Lc)) Ec.
    destruct (decide (dtype tc = uint8)); [contradiction|]. now inversion Ec. }
  run_with_in Ec E.
  pose proof (grows_trans _ _ _ G1 G2) as G12.
  apply bind_ok_inv in E as (a & s3 & Ea & E).
  destruct (forward_arguments_ok_inv current_cuda _ _ _ _ _ _ _ _ _ _ _ _ _ _ _ _
              _ _ _ _ _ _ _
              Ea (grows_lookup _ _ _ _ G12 Lm) (grows_lookup _ _ _ _ G12 Lsc)
              (grows_lookup _ _ _ _ G12 Lq) Lc' (grows_lookup _ _ _ _ G12 Lo)
              (grows_lookup _ _ _ _ G2 Lv') (grows_lookup _ _ _ _ G2 Lp'))
    as (G3 & _ & _ & _ & Cc & _).
  apply bind_ok_inv in E as (out & s4 & Ecall & E).
  unfold call_rasterize_forward in Ecall.
  apply bind_ok_inv in Ecall as (u1 & s5 & Elog & Ecall).
  apply lift_ok_inv in Ecall as [-> Ecore].
  unfold log_call in Elog. inversion Elog; subst s5; clear Elog.
  unfold bind, alloc, set_ctx, ret in E. simpl in E.
  rewrite <- !app_assoc in E. simpl in E. rewrite !length_app in E. simpl in E.
  inversion E; subst res s'; clear E.
  exists a, out, c', v', p', tc', tv', tp', s3.
  split; [eapply grows_trans; eauto|].
  split; [exact (grows_lookup _ _ _ _ G3 Lc')|].
  split; [exact (grows_lookup _ _ _ _ G3 (grows_lookup _ _ _ _ G2 Lv'))|].
  split; [exact (grows_lookup _ _ _ _ G3 (grows_lookup _ _ _ _ G2 Lp'))|].
  destruct Alias as [Av Ap].
  repeat (split; [assumption|]). split; reflexivity.
Qed.

Lemma lookup_app_plus {A} (l l' : list A) (k : nat) :
  (l ++ l') !! (length l + k)%nat = l' !! k.
Proof. rewrite lookup_app_r by lia. f_equal. lia. Qed.

(** The tensors [forward] saves on [ctx] are the caller's own objects,
    not copies: the handles for [means3d], [opacity], [scales] and
    [rotations_quat] are the ones passed in, and so are the colours unless
    they were 8-bit and the camera matrices unless they were padded.  The
    numbers are stored as given, before any conversion. *)
Theorem forward_saves_callers_tensors
    m sc gs q c o v p h w fx fy ch (s s' : State) res
    (tm tsc tq tc to tv tp : Tensor) :
  heap s !! m = Some tm -> heap s !! sc = Some tsc -> heap s !! q = Some tq ->
  heap s !! c = Some tc -> heap s !! o = Some to -> heap s !! v = Some tv ->
  heap s !! p = Some tp ->
  forward lib module_means current_cuda m sc gs q c o v p h w fx fy ch s
    = (Ok res, s') ->
  exists cx c' tc',
    ctx s' = Some cx /\
    take 5 (saved_tensors cx) = [c'; m; o; sc; q] /\
    length (saved_tensors cx) = 12%nat /\
    heap s' !! c' = Some tc' /\ colors_prepared tc tc' /\
    (dtype tc <> uint8 -> c' = c) /\
    (shape tv = [4; 4] -> ctx_view_matrix cx = v) /\
    (shape tp = [4; 4] -> ctx_proj_matrix cx = p) /\
    ctx_glob_scale cx = gs /\ ctx_fx cx = fx /\ ctx_fy cx = fy /\
    ctx_img_height cx = h /\ ctx_img_width cx = w /\ ctx_channels cx = ch.
Proof.
  intros Lm Lsc Lq Lc Lo Lv Lp E.
  destruct (forward_ok_state _ _ _ _ _ _ _ _ _ _ _ _ _ _ _ _ _ _ _ _ _ _ _
              E Lm Lsc Lq Lc Lo Lv Lp)
    as (a & out & c' & v' & p' & tc' & tv' & tp' & s3 & G & Lc' & _ & _ &
        Rc & _ & _ & Ac & Av & Ap & _ & _ & _ & ->).
  eexists _, c', tc'. split; [reflexivity|]. simpl.
  split; [reflexivity|]. split; [reflexivity|].
  split; [now apply lookup_app_l_Some|].
  repeat (split; [assumption|]). repeat split.
Qed.

Lemma get_ctx_some (s : State) cx : ctx s = Some cx -> get_ctx s = (Ok cx, s).
Proof. intros E. unfold get_ctx. now rewrite E. Qed.

(** The reading half of [backward]: with a filled [ctx] and the tensors
    it reads alive, what is left to run is the library call on
    [backward_arguments] and the wrapping of its result. *)
Lemma backward_gathers g1 g g2 (s : State) cx b :
  ctx s = Some cx ->
  backward_arguments (heap s) cx g = Some b ->
  backward lib g1 g g2 s =
  bind (call_rasterize_backward lib b) (fun v =>
  bind (alloc (fst v)) (fun v_colors =>
  bind (alloc (snd v)) (fun v_opacity =>
  bind (squeeze_ v_opacity) (fun v_opacity' =>
  ret (gradient_tuple v_colors v_opacity'))))) s.
Proof.
  intros Ecx Eb. unfold backward_arguments in Eb. unfold backward.
  run_with (get_ctx_some s cx Ecx).
  destruct (saved_tensors cx)
    as [|h1 [|h2 [|h3 [|h4 [|h5 [|h6 [|h7 [|h8 [|h9 [|h10 [|h11 [|h12 [|h13 l]]]]]]]]]]]]];
    try discriminate.
  destruct (heap s !! h2) as [x_means3d|] eqn:L2; [|discriminate].
  destruct (heap s !! h1) as [x_colors|] eqn:L1; [|discriminate].
  destruct (heap s !! h4) as [x_scales|] eqn:L4; [|discriminate].
  destruct (heap s !! g) as [x_grad|] eqn:Lg; [|discriminate].
  destruct (heap s !! h9) as [x_ids|] eqn:L9; [|discriminate].
  destruct (heap s !! h10) as [x_bins|] eqn:L10; [|discriminate].
  destruct (heap s !! h11) as [x_xy|] eqn:L11; [|discriminate].
  destruct (heap s !! h12) as [x_conics|] eqn:L12; [|discriminate].
  destruct (heap s !! h3) as [x_opacities|] eqn:L3; [|discriminate].
  destruct (heap s !! h7) as [x_final_Ts|] eqn:L7; [|discriminate].
  destruct (heap s !! h8) as [x_final_idx|] eqn:L8; [|discriminate].
  inversion Eb; subst b; clear Eb.
  run_with (deref_some _ _ _ L2). run_with (deref_some _ _ _ L1).
  run_with (deref_some _ _ _ L4). run_with (deref_some _ _ _ Lg).
  run_with (deref_some _ _ _ L9). run_with (deref_some _ _ _ L10).
  run_with (deref_some _ _ _ L11). run_with (deref_some _ _ _ L12).
  run_with (deref_some _ _ _ L3). run_with (deref_some _ _ _ L7).
  run_with (deref_some _ _ _ L8).
  reflexivity.
Qed.

(** [backward] in one equation: with a filled [ctx] and the tensors it
    reads alive, it enters the library once with [backward_arguments],
    and either returns the twelve-entry tuple over two new gradient
    tensors (and the squeezed view of the second), or raises what the
    library raised.  It reads neither [rotations_quat] nor [out_radii],
    nor the gradients of [num_rendered] and of the radii. *)
Theorem backward_run g1 g g2 (s : State) cx b :
  ctx s = Some cx ->
  backward_arguments (heap s) cx g = Some b ->
  backward lib g1 g g2 s =
  match rasterize_backward lib b with
  | Ok v =>
      (Ok (gradient_tuple (length (heap s)) (length (heap s) + 2)%nat),
       {| heap := heap s ++ [fst v; snd v; squeeze_last (snd v)];
          ctx := ctx s; calls := calls s ++ [BwdCall b] |})
  | Raise e =>
      (Raise e,
       {| heap := heap s; ctx := ctx s; calls := calls s ++ [BwdCall b] |})
  end.
Proof.
  intros Ecx Eb. rewrite (backward_gathers g1 g g2 s cx b Ecx Eb).
  unfold call_rasterize_backward, squeeze_, bind, log_call, lift, alloc, deref, ret.
  simpl.
  destruct (rasterize_backward lib b) as [v|e]; simpl; [|reflexivity].
  rewrite list_lookup_middle by (rewrite length_app; simpl; lia).
  simpl. rewrite !length_app. simpl. rewrite <- !app_assoc. simpl.
  replace (length (heap s) + 1 + 1)%nat with (length (heap s) + 2)%nat by lia.
  reflexivity.
Qed.

(** The code of [backward] changes no tensor in place and assigns no
    attribute of [ctx]: whether it returns or raises, every tensor it
    found is still there unchanged, and [ctx] holds what it held.  (What
    the library does to its arguments is outside this code; the model
    gives it none of the caller's objects to change.) *)
Theorem backward_keeps_tensors_and_ctx g1 g g2 (s : State) :
  calm s (snd (backward lib g1 g g2 s)).
Proof.
  assert (Refl : forall s0 : State, calm s0 s0).
  { intros s0. split; [apply heap_extends_refl | reflexivity]. }
  unfold backward, bind.
  destruct (get_ctx s) as [[cx|e] s0] eqn:Eg.
  2: { unfold get_ctx in Eg. destruct (ctx s); inversion Eg; subst. apply Refl. }
  assert (s0 = s) as ->.
  { unfold get_ctx in Eg. destruct (ctx s); inversion Eg; auto. }
  destruct (saved_tensors cx)
    as [|h1 [|h2 [|h3 [|h4 [|h5 [|h6 [|h7 [|h8 [|h9 [|h10 [|h11 [|h12 [|h13 l]]]]]]]]]]]]];
    try apply Refl.
  unfold deref.
  repeat match goal with
         | |- context [heap s !! ?x] =>
             destruct (heap s !! x); [|apply Refl]
         end.
  unfold call_rasterize_backward, squeeze_, bind, log_call, lift, alloc, deref, ret.
  simpl.
  match goal with
  | |- context [rasterize_backward lib ?b0] =>
      destruct (rasterize_backward lib b0) as [v|e]
  end; simpl.
  - rewrite list_lookup_middle by (rewrite length_app; simpl; lia).
    simpl. split; [|reflexivity]. unfold heap_extends. simpl.
    rewrite <- !app_assoc. eexists. reflexivity.
  - split; [|reflexivity]. exists []. simpl. now rewrite app_nil_r.
Qed.

(** The tensors the library computed in [forward] reach it again in
    [backward], with the caller's own [means3d], [scales] and [opacity],
    the colours [forward] went on with, and the dimensions and focal
    lengths as the caller gave them. *)
Theorem backward_after_forward
    m sc gs q c o v p h w fx fy ch (s s1 : State) res g1 g g2
    (tm tsc tq tc to tv tp tg : Tensor) :
  heap s !! m = Some tm -> heap s !! sc = Some tsc -> heap s !! q = Some tq ->
  heap s !! c = Some tc -> heap s !! o = Some to -> heap s !! v = Some tv ->
  heap s !! p = Some tp ->
  forward lib module_means current_cuda m sc gs q c o v p h w fx fy ch s
    = (Ok res, s1) ->
  heap s1 !! g = Some tg ->
  exists a out tc',
    rasterize_forward lib a = Ok out /\
    colors_prepared tc tc' /\ same_content (a_colors a) tc' /\
    calls (snd (backward lib g1 g g2 s1))
      = calls s ++ [FwdCall a;
                    BwdCall (saved_arguments tm tc' tsc to tg h w fx fy ch out)] /\
    is_ok (fst (backward lib g1 g g2 s1))
      = is_ok (rasterize_backward lib
                 (saved_arguments tm tc' tsc to tg h w fx fy ch out)).
Proof.
  intros Lm Lsc Lq Lc Lo Lv Lp E Lg.
  destruct (forward_ok_state _ _ _ _ _ _ _ _ _ _ _ _ _ _ _ _ _ _ _ _ _ _ _
              E Lm Lsc Lq Lc Lo Lv Lp)
    as (a & out & c' & v' & p' & tc' & tv' & tp' & s3 & G & Lc' & _ & _ &
        Rc & _ & _ & _ & _ & _ & Cc & Ecore & _ & ->).
  exists a, out, tc'. split; [exact Ecore|]. split; [exact Rc|].
  split; [exact Cc|].
  set (s1 := after_library s3 a out m sc gs q c' o v' p' h w fx fy ch) in *.
  assert (Eb : backward_arguments (heap s1)
                 {| ctx_num_rendered := o_num_rendered out; ctx_glob_scale := gs;
                    ctx_view_matrix := v'; ctx_proj_matrix := p';
                    ctx_img_width := w; ctx_img_height := h;
                    ctx_fx := fx; ctx_fy := fy; ctx_channels := ch;
                    saved_tensors :=
                      [c'; m; o; sc; q;
                       (length (heap s3) + 1)%nat; (length (heap s3) + 2)%nat;
                       (length (heap s3) + 3)%nat; (length (heap s3) + 4)%nat;
                       (length (heap s3) + 5)%nat; (length (heap s3) + 6)%nat;
                       (length (heap s3) + 7)%nat] |} g
               = Some (saved_arguments tm tc' tsc to tg h w fx fy ch out)).
  { unfold backward_arguments. simpl saved_tensors. cbv iota.
    rewrite Lg. subst s1. unfold after_library. simpl heap.
    rewrite !lookup_app_plus. simpl.
    rewrite (lookup_app_l_Some _ _ _ _ (grows_lookup _ _ _ _ G Lm)).
    rewrite (lookup_app_l_Some _ _ _ _ Lc').
    rewrite (lookup_app_l_Some _ _ _ _ (grows_lookup _ _ _ _ G Lsc)).
    rewrite (lookup_app_l_Some _ _ _ _ (grows_lookup _ _ _ _ G Lo)).
    reflexivity. }
  rewrite (backward_gathers g1 g g2 s1 _ _ eq_refl Eb).
  destruct G as (_ & _ & Calls).
  unfold call_rasterize_backward, squeeze_, bind, log_call, lift, alloc, deref, ret.
  simpl.
  destruct (rasterize_backward lib _) as [v0|e0]; simpl.
  - rewrite list_lookup_middle by (rewrite length_app; simpl; lia).
    simpl. rewrite Calls, <- app_assoc. auto.
  - rewrite Calls, <- app_assoc. auto.
Qed.

End SaveForBackward.

(* ===================================================================== *)
(** ** [vis_image]: what reaches PIL                                     *)
(* ===================================================================== *)

Section VisImageFacts.
Import VisImage.
Context {scalar : Type} `{ByteOps scalar}.

#[local] Abbreviation Tensor := (Tensor scalar).

Lemma pick_bgr_lookup (k : nat) : forall (n : nat) (l : list scalar) (i c : nat),
  (3 <= k)%nat -> length l = (n * k)%nat -> (i < n)%nat -> (c < 3)%nat ->
  pick_bgr k n l !! (3 * i + c)%nat = l !! (k * i + (2 - c))%nat.
Proof.
  induction n as [|n IH]; intros l i c K Len I C; [lia|].
  cbn [pick_bgr].
  assert (Lt : (3 <= length (take k l))%nat).
  { rewrite length_take. rewrite Len. nia. }
  destruct (take k l) as [|x0 [|x1 [|x2 rest]]] eqn:Tk; simpl in Lt; try lia.
  assert (L0 : l !! 0%nat = Some x0).
  { rewrite <- (lookup_take_lt l k 0) by lia. now rewrite Tk. }
  assert (L1 : l !! 1%nat = Some x1).
  { rewrite <- (lookup_take_lt l k 1) by lia. now rewrite Tk. }
  assert (L2 : l !! 2%nat = Some x2).
  { rewrite <- (lookup_take_lt l k 2) by lia. now rewrite Tk. }
  destruct i as [|i].
  - replace (k * 0 + (2 - c))%nat with (2 - c)%nat by lia.
    replace (3 * 0 + c)%nat with c by lia.
    destruct c as [|[|[|c]]]; simpl; try lia; congruence.
  - replace (3 * S i + c)%nat with (length [x2; x1; x0] + (3 * i + c))%nat
      by (simpl; lia).
    rewrite lookup_app_r by lia.
    replace (length [x2; x1; x0] + (3 * i + c) - length [x2; x1; x0])%nat
      with (3 * i + c)%nat by lia.
    rewrite IH; try lia.
    + rewrite lookup_drop. f_equal. lia.
    + rewrite length_drop. rewrite Len. lia.
Qed.

Lemma pick_bgr_involutive : forall (n : nat) (l : list scalar),
  length l = (n * 3)%nat -> pick_bgr 3 n (pick_bgr 3 n l) = l.
Proof.
  induction n as [|n IH]; intros l Len.
  - destruct l; [reflexivity | discriminate].
  - destruct l as [|x0 [|x1 [|x2 l']]]; simpl in Len; try lia.
    cbn [pick_bgr take drop app]. f_equal. f_equal. f_equal.
    apply IH. lia.
Qed.

Lemma index_bgr_shape (a : Tensor) (lead : list Z) (k : Z) :
  shape a = lead ++ [k] -> 3 <= k ->
  index_bgr a =
  Ok {| shape := lead ++ [3]; dtype := dtype a; device := cpu;
        is_contiguous := true;
        data := pick_bgr (Z.to_nat k) (pixel_count (reverse lead)) (data a) |}.
Proof.
  intros S K. unfold index_bgr. rewrite S, reverse_snoc.
  destruct (k <? 3) eqn:B; [apply Z.ltb_lt in B; lia|].
  now rewrite reverse_involutive.
Qed.

Section Outside.
Context {FS Img : Type} (outside : Outside scalar FS Img).

(** A tensor image with at least three channels reaches PIL as 8-bit
    data of the same height and width with exactly three channels, the
    first three of the tensor in reverse order (RGB becomes BGR); a
    fourth channel and beyond are dropped. *)
Theorem vis_image_reverses_channels (t : Tensor) (lead : list Z) (k : Z)
    (image_path : string) (w : World FS) :
  well_formed_pixels t lead k -> 3 <= k ->
  exists arr,
    vis_image outside (TensorImage t) image_path w
      = save_array outside arr image_path w /\
    shape arr = lead ++ [3] /\ dtype arr = uint8 /\
    forall i c : nat,
      (i < pixel_count (reverse lead))%nat -> (c < 3)%nat ->
      data arr !! (3 * i + c)%nat
        = to_byte (dtype t) <$> data t !! (Z.to_nat k * i + (2 - c))%nat.
Proof.
  intros [S Len] K. unfold vis_image, to_array.
  rewrite (index_bgr_shape (scaled_bytes t) lead k S K).
  eexists. split; [reflexivity|]. split; [reflexivity|]. split; [reflexivity|].
  intros i c I C. unfold scaled_bytes. cbn [data dtype].
  rewrite pick_bgr_lookup; try lia.
  - apply list_lookup_fmap.
  - rewrite length_map. exact Len.
Qed.


End Outside.

(** Reversing the channels of a three-channel array twice gives back
    its shape and its elements. *)
Theorem channel_reversal_round_trip (a : Tensor) (lead : list Z) :
  well_formed_pixels a lead 3 ->
  exists a1 a2,
    index_bgr a = Ok a1 /\ index_bgr a1 = Ok a2 /\
    shape a2 = shape a /\ dtype a2 = dtype a /\ data a2 = data a.
Proof.
  intros [S Len].
  eexists _, _. split; [apply (index_bgr_shape a lead 3 S); lia|].
  split; [apply (index_bgr_shape _ lead 3); [reflexivity | lia]|].
  simpl. split; [now rewrite S|]. split; [reflexivity|].
  apply pick_bgr_involutive. exact Len.
Qed.

End VisImageFacts.

(* ===================================================================== *)
(** ** The further properties on concrete calls                          *)
(* ===================================================================== *)

Section MoreConcreteCalls.
Import Instance MoreInstance VisImage VisInstance.

Lemma validate_inputs_accepts_iff_witness :
  validate_inputs None 0%nat 1%nat 2%nat 3%nat 4%nat scene_flat_opacity
    = (Ok tt, scene_flat_opacity).
Proof.
  eapply (proj2 (validate_inputs_accepts_iff None 0%nat 1%nat 2%nat 3%nat 4%nat
                   scene_flat_opacity _ _ _ _ _
                   eq_refl eq_refl eq_refl eq_refl eq_refl)).
  exists 2. repeat split.
Defined.

Lemma forward_batch_mismatch_raises_name_error_witness :
  run_forward scene_mismatch = (Raise (NameError "means"), scene_mismatch).
Proof.
  unfold run_forward.
  eapply (forward_batch_mismatch_raises_name_error blank_lib 0%nat
            0%nat 1%nat (PyInt 1) 2%nat 3%nat 4%nat 5%nat 6%nat 4 4
            (PyInt 2) (PyInt 2) 3 scene_mismatch _ _ _ _ _ 2 2 2 3 2);
    [reflexivity | reflexivity | reflexivity | reflexivity | reflexivity
    | reflexivity | reflexivity | reflexivity | reflexivity | reflexivity |].
  right; right; left. lia.
Defined.

Lemma scene_same_batch :
  same_batch (tensor [2; 3] float32 cpu [0; 0; 0; 1; 1; 1]%Q)
             (tensor [2; 3] float32 cpu [1; 1; 1; 1; 1; 1]%Q)
             (tensor [2; 4] float32 cpu [1; 0; 0; 0; 1; 0; 0; 0]%Q)
             (tensor [2; 3] uint8 cpu [255; 0; 0; 0; 51; 255]%Q)
             (tensor [2; 1] float32 cpu [1; 1]%Q).
Proof. exists 2. repeat split. Qed.

Lemma scene_camera_ready :
  camera_ready
    (tensor [3; 4] float32 cpu [1; 0; 0; 0; 0; 1; 0; 0; 0; 0; 1; 8]%Q)
    (tensor [4; 4] float32 cpu
       [1; 0; 0; 0; 0; 1; 0; 0; 0; 0; 1; 0; 0; 0; 0; 1]%Q).
Proof. split; [left; reflexivity | right; repeat split]. Qed.

Lemma forward_returns_library_outputs_witness :
  exists a s', calls s' = [FwdCall a] /\
    rasterize_forward failing_lib a = Raise (RuntimeError "CUDA out of memory") /\
    fst (forward failing_lib None 0%nat 0%nat 1%nat (PyInt 1) 2%nat 3%nat 4%nat
           5%nat 6%nat 4 4 (PyInt 2) (PyInt 2) 3 scene)
      = Raise (RuntimeError "CUDA out of memory") /\
    ctx s' = None.
Proof.
  destruct (forward_returns_library_outputs failing_lib None 0%nat
              0%nat 1%nat (PyInt 1) 2%nat 3%nat 4%nat 5%nat 6%nat 4 4
              (PyInt 2) (PyInt 2) 3 scene _ _ _ _ _ _ _
              (S754_finite false 4503599627370496 (-52))
              (S754_finite false 4503599627370496 (-51))
              (S754_finite false 4503599627370496 (-51))
              eq_refl eq_refl eq_refl eq_refl eq_refl eq_refl eq_refl
              scene_same_batch scene_camera_ready eq_refl eq_refl eq_refl)
    as (a & s' & _ & Calls & M).
  exists a, s'. split; [exact Calls|]. split; [reflexivity|].
  simpl in M. exact M.
Defined.

Lemma run_forward_bad_view :
  forward blank_lib None 0%nat 0%nat 1%nat (PyInt 1) 2%nat 3%nat 4%nat 5%nat 6%nat
    4 4 (PyInt 2) (PyInt 2) 3 scene_bad_view
  = (Raise (AssertionError "Incorrect shape for view matrix"), scene_bad_view).
Proof. vm_compute. reflexivity. Qed.

Lemma forward_failure_leaves_ctx_witness :
  ctx scene_bad_view = None /\ calls scene_bad_view = [].
Proof.
  edestruct (forward_failure_leaves_ctx blank_lib None 0%nat
               0%nat 1%nat (PyInt 1) 2%nat 3%nat 4%nat 5%nat 6%nat 4 4
               (PyInt 2) (PyInt 2) 3 scene_bad_view scene_bad_view
               (AssertionError "Incorrect shape for view matrix"))
    as (Ctx & _).
  1-7: reflexivity.
  { exact run_forward_bad_view. }
  split; [exact Ctx | reflexivity].
Defined.

Lemma after_forward_calls a :
  scene_arguments = Some a -> calls after_forward = calls scene ++ [FwdCall a].
Proof.
  unfold scene_arguments. intros E.
  destruct (calls after_forward) as [|[a0|b0] [|x l]]; inversion E; reflexivity.
Qed.

Lemma forward_hands_over_placed_tensors_witness :
  match scene_arguments with
  | Some a => all_placed 0%nat a
  | None => False
  end.
Proof.
  destruct scene_arguments as [a|] eqn:E; [|vm_compute in E; discriminate].
  eapply (forward_hands_over_placed_tensors blank_lib None 0%nat
            0%nat 1%nat (PyInt 1) 2%nat 3%nat 4%nat 5%nat 6%nat 4 4
            (PyInt 2) (PyInt 2) 3 scene after_forward (Ok (0, 19%nat, 20%nat)) a).
  1-7: reflexivity.
  - exact run_forward_scene.
  - exact (after_forward_calls a E).
Defined.

Lemma forward_hands_over_square_matrices_witness :
  match scene_arguments with
  | Some a => shape (a_view_matrix a) = [4; 4] /\ shape (a_proj_matrix a) = [4; 4]
  | None => False
  end.
Proof.
  destruct scene_arguments as [a|] eqn:E; [|vm_compute in E; discriminate].
  eapply (forward_hands_over_square_matrices blank_lib None 0%nat
            0%nat 1%nat (PyInt 1) 2%nat 3%nat 4%nat 5%nat 6%nat 4 4
            (PyInt 2) (PyInt 2) 3 scene after_forward (Ok (0, 19%nat, 20%nat)) a).
  1-7: reflexivity.
  - exact run_forward_scene.
  - exact (after_forward_calls a E).
Defined.

Lemma forward_saves_callers_tensors_witness :
  exists cx c', ctx after_forward = Some cx /\
    take 5 (saved_tensors cx) = [c'; 0%nat; 4%nat; 1%nat; 2%nat] /\
    ctx_proj_matrix cx = 6%nat /\ ctx_glob_scale cx = PyInt 1.
Proof.
  edestruct (forward_saves_callers_tensors blank_lib None 0%nat
               0%nat 1%nat (PyInt 1) 2%nat 3%nat 4%nat 5%nat 6%nat 4 4
               (PyInt 2) (PyInt 2) 3 scene after_forward (0, 19%nat, 20%nat))
    as (cx & c' & tc' & Ctx & Saved & _ & _ & _ & _ & _ & Ap & Gs & _).
  1-7: reflexivity.
  { exact run_forward_scene. }
  exists cx, c'. split; [exact Ctx|]. split; [exact Saved|].
  split; [apply Ap; reflexivity | exact Gs].
Defined.

Lemma backward_after_forward_witness :
  exists a b, calls after_backward = [FwdCall a; BwdCall b] /\
    b_means3d b = tensor [2; 3] float32 cpu [0; 0; 0; 1; 1; 1]%Q /\
    b_img_height b = 4 /\ b_fx b = PyInt 2.
Proof.
  edestruct (backward_after_forward blank_lib None 0%nat
               0%nat 1%nat (PyInt 1) 2%nat 3%nat 4%nat 5%nat 6%nat 4 4
               (PyInt 2) (PyInt 2) 3 scene after_forward (0, 19%nat, 20%nat)
               None 19%nat None)
    as (a & out & tc' & _ & _ & _ & Calls & _).
  1-7: reflexivity.
  { exact run_forward_scene. }
  { reflexivity. }
  eexists a, _. split; [exact Calls|]. repeat split.
Defined.

Lemma backward_run_witness :
  is_ok (fst (backward blank_lib None 19%nat None after_forward)) = true.
Proof.
  destruct (ctx after_forward) as [cx|] eqn:Ecx; [|vm_compute in Ecx; discriminate].
  destruct (backward_arguments (heap after_forward) cx 19%nat) as [b|] eqn:Eb.
  2: { vm_compute in Ecx. inversion Ecx; subst cx. vm_compute in Eb. discriminate. }
  rewrite (backward_run blank_lib None 19%nat None after_forward cx b Ecx Eb).
  reflexivity.
Defined.

Lemma two_pixels_well_formed : well_formed_pixels two_pixels [1; 2] 3.
Proof. split; reflexivity. Qed.

Lemma vis_image_reverses_channels_witness :
  exists arr,
    vis_image disk_outside (TensorImage two_pixels) "out/img.png" empty_world
      = save_array disk_outside arr "out/img.png" empty_world /\
    data arr !! 0%nat = Some 0%Q /\ data arr !! 2%nat = Some 255%Q.
Proof.
  destruct (vis_image_reverses_channels disk_outside two_pixels [1; 2] 3
              "out/img.png" empty_world two_pixels_well_formed ltac:(lia))
    as (arr & E & _ & _ & Px).
  exists arr. split; [exact E|].
  assert (I : (0 < pixel_count (reverse [1%Z; 2%Z]))%nat) by (vm_compute; lia).
  pose proof (Px 0%nat 0%nat I ltac:(lia)) as P0.
  pose proof (Px 0%nat 2%nat I ltac:(lia)) as P2.
  split; [exact P0 | exact P2].
Defined.


Lemma channel_reversal_round_trip_witness :
  exists a1 a2, index_bgr two_pixels = Ok a1 /\ index_bgr a1 = Ok a2 /\
                data a2 = [1; 0; 0; 1 # 5; 1 # 5; 1 # 5]%Q.
Proof.
  destruct (channel_reversal_round_trip two_pixels [1; 2] two_pixels_well_formed)
    as (a1 & a2 & E1 & E2 & _ & _ & X).
  exists a1, a2. split; [exact E1|]. split; [exact E2 | exact X].
Defined.

Lemma forward_enters_library_iff_witness :
  exists a,
    calls (snd (forward blank_lib None 0%nat 0%nat 1%nat (PyInt 1) 2%nat 3%nat
                  4%nat 5%nat 6%nat 4 4 (PyInt 2) (PyInt 2) 3 scene))
      = [FwdCall a].
Proof.
  eapply (proj2 (forward_enters_library_iff blank_lib None 0%nat
                   0%nat 1%nat (PyInt 1) 2%nat 3%nat 4%nat 5%nat 6%nat 4 4
                   (PyInt 2) (PyInt 2) 3 scene _ _ _ _ _ _ _
                   eq_refl eq_refl eq_refl eq_refl eq_refl eq_refl eq_refl)).
  split; [exact scene_same_batch|]. split; [exact scene_camera_ready|].
  repeat split.
Defined.

Lemma prepare_matrices_accepts_iff_witness :
  exists vp s', prepare_matrices 5%nat 6%nat scene = (Ok vp, s').
Proof.
  eapply (proj2 (prepare_matrices_accepts_iff 5%nat 6%nat scene _ _
                   eq_refl eq_refl)).
  exact scene_camera_ready.
Defined.

End MoreConcreteCalls.
